(** * SIH_agri: the Flask analysis server ([flask_server/app.py])

    A shallow embedding of the server: the palette mapper [jet_rgb] and
    [apply_jet_palette], the synthetic report and maps of
    [generate_demo_results], the orchestrator [run_matlab] and the report
    query engine [get_ai_response].

    Conventions.
    - A Python [str] is a list of Unicode code points.  White space
      ([str.isspace], the class [\s], [str.strip]) and the letters that
      [re.IGNORECASE] identifies with an ASCII letter are the sets of
      CPython 3; the alphanumeric code points above 127 and the
      lower-casing of code points above 127 are read from a database
      record that every definition takes as a parameter.
    - Python [float] is IEEE binary64, i.e. the primitive [float] type.
    - The operating system (environment variables, [shutil.which], the
      sub-process, the directory listing, the clock), the failures of
      the file system and the way the file is launched are a record of
      oracles that [run_matlab] consults.
    - A call that may raise returns an option or a result; the handler at
      the end of [run_matlab] turns an exception into a reply. *)

From Stdlib Require Import String Ascii List ZArith NArith Bool Lia.
From Stdlib Require Import Floats Uint63 DecimalString.
Import ListNotations.

Set Warnings "-inexact-float".

(* ------------------------------------------------------------------ *)
(** ** Python string primitives *)

Module Text.

(** A character is its code point. *)
Definition char : Type := N.
Definition text : Type := list char.

(** An ASCII literal as a text. *)
Definition T (s : string) : text := map N_of_ascii (list_ascii_of_string s).
Arguments T s%_string_scope.

(** The line feed, the double quote, the backslash and the slash. *)
Definition LF : char := 10%N.
Definition DQ : char := 34%N.
Definition backslash : char := 92%N.
Definition slash : char := 47%N.
Definition nl : text := [LF].

(** [a == b] on strings. *)
Fixpoint eqb (a b : text) : bool :=
  match a, b with
  | [], [] => true
  | x :: a', y :: b' => (x =? y)%N && eqb a' b'
  | _, _ => false
  end.

Definition between (lo hi : N) (c : char) : bool := ((lo <=? c) && (c <=? hi))%N.

Definition is_upper : char -> bool := between 65 90.
Definition is_lower : char -> bool := between 97 122.
Definition is_digit : char -> bool := between 48 57.

(** [str.isspace] on one character, which is also the class [\s] and what
    [str.strip] removes: TAB LF VT FF CR, FS GS RS US, SPACE, NEL, the
    no-break space, and the spaces and separators of the general
    punctuation block. *)
Definition is_space (c : char) : bool :=
  between 9 13 c || between 28 32 c
  || existsb (N.eqb c) [133; 160; 5760; 8232; 8233; 8239; 8287; 12288]%N
  || between 8192 8202 c.

(** The Unicode character database, for the code points above 127: which
    of them are alphanumeric ([str.isalnum]), and what [str.lower] makes
    of one of them between the text before it and the text after it.  No
    white space character is alphanumeric. *)
Record unicode : Type := {
  alnum : char -> bool;
  lowered : text -> char -> text -> text;
  alnum_space : forall c, is_space c = true -> alnum c = false
}.

(** [c.isalnum()] *)
Definition isalnum (U : unicode) (c : char) : bool :=
  if (c <? 128)%N then is_upper c || is_lower c || is_digit c else alnum U c.

(** The class [\w]: alphanumeric or the underscore. *)
Definition is_word (U : unicode) (c : char) : bool :=
  isalnum U c || (c =? 95)%N.

(** Lower case of an ASCII character. *)
Definition lower_char (c : char) : char :=
  if is_upper c then (c + 32)%N else c.

(** [s.lower()], from the left with the text already passed. *)
Fixpoint lower_from (U : unicode) (before s : text) : text :=
  match s with
  | [] => []
  | c :: rest =>
      (if (c <? 128)%N then [lower_char c] else lowered U before c rest)
      ++ lower_from U (before ++ [c]) rest
  end.

Definition lower (U : unicode) (s : text) : text := lower_from U [] s.

(** [s.startswith(p)] *)
Fixpoint startswith (p s : text) : bool :=
  match p, s with
  | [], _ => true
  | a :: p', b :: s' => (a =? b)%N && startswith p' s'
  | _ :: _, [] => false
  end.

(** [sub in s] *)
Fixpoint contains (sub s : text) : bool :=
  startswith sub s ||
  match s with
  | [] => false
  | _ :: s' => contains sub s'
  end.

(** [s.find(sub)], with [None] for Python's [-1]. *)
Fixpoint find (sub s : text) : option nat :=
  if startswith sub s then Some 0
  else match s with
       | [] => None
       | _ :: s' => option_map S (find sub s')
       end.

(** [s[n:]] and [s[:n]] *)
Fixpoint drop (n : nat) (s : text) : text :=
  match n, s with
  | S n', _ :: s' => drop n' s'
  | _, _ => s
  end.

Fixpoint take (n : nat) (s : text) : text :=
  match n, s with
  | S n', c :: s' => c :: take n' s'
  | _, _ => []
  end.

(** [s.endswith(p)] *)
Definition endswith (p s : text) : bool :=
  (length p <=? length s) && eqb (drop (length s - length p) s) p.

Fixpoint lstrip (s : text) : text :=
  match s with
  | [] => []
  | c :: s' => if is_space c then lstrip s' else s
  end.

Fixpoint rstrip (s : text) : text :=
  match s with
  | [] => []
  | c :: s' =>
      match rstrip s' with
      | [] => if is_space c then [] else [c]
      | r => c :: r
      end
  end.

(** [s.strip()] *)
Definition strip (s : text) : text := rstrip (lstrip s).

(** [s.replace(a, b)] for single characters. *)
Fixpoint replace_char (a b : char) (s : text) : text :=
  match s with
  | [] => []
  | c :: s' => (if (c =? a)%N then b else c) :: replace_char a b s'
  end.

(** [sep.join(parts)] *)
Fixpoint join (sep : text) (parts : list text) : text :=
  match parts with
  | [] => []
  | [p] => p
  | p :: rest => p ++ sep ++ join sep rest
  end.

(** [s.split("\n")]: the pieces between line feeds. *)
Fixpoint split_from (cur s : text) : list text :=
  match s with
  | [] => [cur]
  | c :: s' =>
      if (c =? LF)%N then cur :: split_from [] s'
      else split_from (cur ++ [c]) s'
  end.

Definition lines (s : text) : list text := split_from [] s.

(** [str(n)] for an [int], and zero padding as [strftime] does. *)
Definition str_int (z : Z) : text := T (NilZero.string_of_int (Z.to_int z)).
Definition str_nat (n : N) : text := T (NilZero.string_of_uint (N.to_uint n)).

Fixpoint zeros (k : nat) : text :=
  match k with
  | O => []
  | S k' => 48%N :: zeros k'
  end.

Definition pad (width : nat) (n : N) : text :=
  let d := str_nat n in zeros (width - length d) ++ d.

End Text.

(* ------------------------------------------------------------------ *)
(** ** The fragment of [re] the server uses

    A pattern is a sequence of items: one character of a class, a starred
    class (greedy [c*] or lazy [c*?]) and the parentheses of the single
    group.  [exec] is the backtracking matcher anchored at the start of
    the subject; [search] tries every start position from the left, as
    [re.search] does, and yields [group(1)] of the first match. *)

Module Re.
Import Text.

Inductive item : Type :=
| Chr (p : char -> bool)
| Star (greedy : bool) (p : char -> bool)
| Open
| Close.

Definition pattern := list item.

Definition push (g : bool) (c : char) (acc : text) : text :=
  if g then acc ++ [c] else acc.

(** A starred class in front of the continuation [k]: the greedy star
    takes a character first and falls back on [k]; the lazy one tries
    [k] first. *)
Fixpoint star (greedy : bool) (p : char -> bool) (g : bool)
  (k : text -> text -> option text) (s acc : text) : option text :=
  match s with
  | c :: s' =>
      if p c then
        if greedy then
          match star greedy p g k s' (push g c acc) with
          | Some x => Some x
          | None => k s acc
          end
        else
          match k s acc with
          | Some x => Some x
          | None => star greedy p g k s' (push g c acc)
          end
      else k s acc
  | [] => k s acc
  end.

(** [g] tells whether the group is open and [acc] is what it has
    captured so far. *)
Fixpoint exec (its : pattern) (s : text) (g : bool) (acc : text)
  {struct its} : option text :=
  match its with
  | [] => Some acc
  | Open :: r => exec r s true []
  | Close :: r => exec r s false acc
  | Chr p :: r =>
      match s with
      | c :: s' => if p c then exec r s' g (push g c acc) else None
      | [] => None
      end
  | Star greedy p :: r => star greedy p g (fun s' acc' => exec r s' g acc') s acc
  end.

Fixpoint search (its : pattern) (s : text) : option text :=
  match exec its s false [] with
  | Some x => Some x
  | None =>
      match s with
      | [] => None
      | _ :: s' => search its s'
      end
  end.

(** The ASCII letter that [re.IGNORECASE] identifies a character with:
    besides the two cases of a letter, the dotted capital and the dotless
    small i, the long s and the Kelvin sign. *)
Definition fold (c : char) : char :=
  if ((c =? 304) || (c =? 305))%N then 105%N
  else if (c =? 383)%N then 115%N
  else if (c =? 8490)%N then 107%N
  else lower_char c.

(** A literal character of a pattern (an ASCII one), exactly or under
    [re.IGNORECASE]. *)
Definition exactly (a c : char) : bool := (a =? c)%N.
Definition nocase (a c : char) : bool := (lower_char a =? fold c)%N.

Fixpoint literal (same : char -> char -> bool) (s : text) : pattern :=
  match s with
  | [] => []
  | a :: s' => Chr (same a) :: literal same s'
  end.

Definition lit : text -> pattern := literal exactly.
Definition lit_i : text -> pattern := literal nocase.

(** [[\s\S]] *)
Definition any (c : char) : bool := is_space c || negb (is_space c).

End Re.
(* ------------------------------------------------------------------ *)
(** ** Palette mapper: [jet_rgb] *)

Module Palette.
Local Open Scope float_scope.

(** [min(a, b)] and [max(a, b)] on floats: the first argument is kept
    unless the second is strictly smaller (larger). *)
Definition py_min (a b : float) : float := if b <? a then b else a.
Definition py_max (a b : float) : float := if a <? b then b else a.

Definition jet_rgb (v : float) : float * float * float :=
  let '(r, g, b) :=
    if v <? 0.25 then (0.0, 4 * v, 1.0)
    else if v <? 0.5 then (0.0, 1.0, 1.0 - 4 * (v - 0.25))
    else if v <? 0.75 then (4 * (v - 0.5), 1.0, 0.0)
    else (1.0, 1.0 - 4 * (v - 0.75), 0.0) in
  let r := py_max 0.0 (py_min 1.0 r) in
  let g := py_max 0.0 (py_min 1.0 g) in
  let b := py_max 0.0 (py_min 1.0 b) in
  (r, g, b).

(** The colormap as the design document words it: four segments chosen
    by explicit interval guards, then every channel clamped. *)
Definition clamp01 (x : float) : float := py_max 0.0 (py_min 1.0 x).

Definition segment1 (v : float) := (0.0, 4 * v, 1.0).
Definition segment2 (v : float) := (0.0, 1.0, 1.0 - 4 * (v - 0.25)).
Definition segment3 (v : float) := (4 * (v - 0.5), 1.0, 0.0).
Definition segment4 (v : float) := (1.0, 1.0 - 4 * (v - 0.75), 0.0).

Definition clamp3 (c : float * float * float) : float * float * float :=
  let '(r, g, b) := c in (clamp01 r, clamp01 g, clamp01 b).

Definition mapIntensity (v : float) : option (float * float * float) :=
  if v <? 0.25 then Some (clamp3 (segment1 v))
  else if (0.25 <=? v) && (v <? 0.5) then Some (clamp3 (segment2 v))
  else if (0.5 <=? v) && (v <? 0.75) then Some (clamp3 (segment3 v))
  else if 0.75 <=? v then Some (clamp3 (segment4 v))
  else None.

Definition in_unit (x : float) : Prop := (0 <=? x) = true /\ (x <=? 1) = true.

End Palette.


(* ------------------------------------------------------------------ *)
(** ** Synthetic report generator: the text of [generate_demo_results] *)

Module Report.
Import Text.

(** What the generator reads from the clock: [int(time_time_safe())] and
    the fields of [datetime.utcnow()] (a year of four digits). *)
Record clock : Type := {
  epoch : Z;
  year : N; month : N; day : N;
  hour : N; minute : N; second : N
}.

(** [strftime('%Y-%m-%d %H:%M:%S UTC')] *)
Definition strftime (c : clock) : text :=
  pad 4 (year c) ++ T "-" ++ pad 2 (month c) ++ T "-" ++ pad 2 (day c) ++ T " " ++
  pad 2 (hour c) ++ T ":" ++ pad 2 (minute c) ++ T ":" ++ pad 2 (second c) ++ T " UTC".

(** The three characters of the template outside ASCII: the degree sign,
    the bullet and the en dash. *)
Definition degree : char := 176%N.
Definition bullet : char := 8226%N.
Definition en_dash : char := 8211%N.

Definition opening : list text :=
  [ T "";
    T "=== AGRICULTURAL MONITORING RESULTS ===";
    T "";
    T "EXECUTIVE SUMMARY";
    T "================" ].

Definition remainder : list text :=
  [ T "Overall Assessment: Good (Score: 0.82)";
    T "Risk Level: Medium";
    T "";
    T "CROP HEALTH ANALYSIS";
    T "====================";
    T "Overall Health: Good (Score: 0.78)";
    T "Confidence: 0.85";
    T "";
    T "Vegetation Indices:";
    T "  NDVI: 0.612 (Healthy)";
    T "  GNDVI: 0.488 (Healthy)";
    T "  NDRE: 0.212 (Moderate)";
    T "  SAVI: 0.365 (Moderate)";
    T "  EVI: 0.304 (Moderate)";
    T "";
    T "Health Distribution:";
    T "  Healthy: 62.5%";
    T "  Stressed: 25.0%";
    T "  Unhealthy: 12.5%";
    T "";
    T "SOIL CONDITION ANALYSIS";
    T "=======================";
    T "Overall Health: Good (Score: 0.81)";
    T "";
    T "Soil Parameters:";
    T "  Moisture: 0.18 (Adequate)";
    (T "  Temperature: 22.1" ++ degree :: T "C (Optimal)");
    T "  pH: 6.7 (Optimal)";
    T "  EC: 1.35 dS/m (Normal)";
    T "";
    T "PEST RISK ANALYSIS";
    T "==================";
    T "Overall Risk: Medium (Score: 0.46)";
    T "Confidence: 0.77";
    T "";
    T "Specific Pest Risks:";
    T "  Aphids: 0.42 (Medium Risk)";
    T "  Whiteflies: 0.28 (Low Risk)";
    T "  Thrips: 0.31 (Medium Risk)";
    T "  Spider Mites: 0.22 (Low Risk)";
    T "  Caterpillars: 0.18 (Low Risk)";
    T "";
    T "RECOMMENDATIONS";
    T "===============";
    T "Crop Health Recommendations:";
    (bullet :: T " Maintain current irrigation; spot-check yellow areas.");
    T "";
    T "Soil Condition Recommendations:";
    (bullet :: T " If moisture < 0.2, apply 10" ++ en_dash :: T "20 mm irrigation.");
    T "";
    T "Pest Management Recommendations:";
    (bullet :: T " Medium pest pressure; scout hotspots before spraying.");
    T "";
    T "Integrated Recommendations:";
    (bullet :: T " Prioritize scouting in medium/high-risk patches, then re-check indices in 3 days.");
    T "";
    T "=== END OF RESULTS ===";
    T "" ].

(** The two lines with a variable field. *)
Definition id_line (c : clock) : text := T "Report ID: DEMO-" ++ str_int (epoch c).
Definition date_line (c : clock) : text :=
  let now := strftime c in T "Analysis Date: " ++ now.

(** The f-string of the source, line by line. *)
Definition generate_demo_results (c : clock) : text :=
  join nl (opening ++ [id_line c; date_line c] ++ remainder).

(** The five section titles of the report schema, in order. *)
Definition titles : list text :=
  [ T "EXECUTIVE SUMMARY"; T "CROP HEALTH ANALYSIS"; T "SOIL CONDITION ANALYSIS";
    T "PEST RISK ANALYSIS"; T "RECOMMENDATIONS" ].

End Report.

(* ------------------------------------------------------------------ *)
(** ** Report query engine: [get_ai_response] *)

Module Chat.
Import Text Re.

(** A Python number: [base_profit] starts as an [int] and becomes a
    [float] at the first [*=]. *)
Inductive number : Type :=
| Int (z : Z)
| Float (f : float).

(** [float(z)], exact for the magnitudes met here (below 2^53). *)
Definition as_float (n : number) : float :=
  match n with
  | Int z => PrimFloat.of_uint63 (Uint63.of_Z z)
  | Float f => f
  end.

(** [n *= x] with a float [x]. *)
Definition times (n : number) (x : float) : number :=
  Float (as_float n * x)%float.

(** [int(f)]: truncation towards zero; [None] where Python raises (nan and
    the infinities). *)
Definition trunc (f : float) : option Z :=
  match Prim2SF f with
  | S754_zero _ => Some 0%Z
  | S754_finite sign m e =>
      let a := if (0 <=? e)%Z then Z.shiftl (Zpos m) e
               else Z.shiftr (Zpos m) (- e) in
      Some (if sign then (- a)%Z else a)
  | S754_infinity _ | S754_nan => None
  end.

Definition int (n : number) : option Z :=
  match n with
  | Int z => Some z
  | Float f => trunc f
  end.

(** [Label:\s*(\w+)] under [re.IGNORECASE]. *)
Definition labelled (U : unicode) (label : text) : pattern :=
  lit_i label ++ [Star true is_space; Open; Chr (is_word U); Star true (is_word U); Close].

Definition health_label : text := T "Overall Crop Health Status:".
Definition pest_label : text := T "Overall Pest Risk Level:".

Definition health_re (U : unicode) : pattern := labelled U health_label.
Definition pest_re (U : unicode) : pattern := labelled U pest_label.

(** [TITLE\s*=====([\s\S]*?)NEXT] *)
Definition section (title underline next : text) : pattern :=
  lit title ++ [Star true is_space] ++ lit underline ++
  [Open; Star false any; Close] ++ lit next.

Definition crop_section_re : pattern :=
  section (T "CROP HEALTH ANALYSIS") (T "====================") (T "SOIL CONDITION ANALYSIS").
Definition soil_section_re : pattern :=
  section (T "SOIL CONDITION ANALYSIS") (T "=======================") (T "PEST RISK ANALYSIS").
Definition pest_section_re : pattern :=
  section (T "PEST RISK ANALYSIS") (T "==================") (T "RECOMMENDATIONS").

(** [RECOMMENDATIONS\s*===============] and then the group, a greedy star of [[\s\S]]. *)
Definition recommendations_re : pattern :=
  lit (T "RECOMMENDATIONS") ++ [Star true is_space] ++ lit (T "===============") ++
  [Open; Star true any; Close].

Definition no_context_profit : text :=
  T "I can only calculate potential profit after an analysis has been run. Please run the analysis first.".
Definition no_context : text :=
  T "I don't have any analysis results to work with yet. Please click 'Run Analysis' first.".
Definition no_crop_section : text :=
  T "I couldn't find the Crop Health section in the analysis.".
Definition no_soil_section : text :=
  T "I couldn't find the Soil Condition section in the analysis.".
Definition no_pest_section : text :=
  T "I couldn't find the Pest Risk section in the analysis.".
Definition no_recommendations : text :=
  T "I couldn't find any recommendations in the analysis.".
Definition capabilities : text :=
  T "I can answer questions about crop health, soil conditions, pest risk, and potential profit. What would you like to know?".

Definition profit_reply (amount : Z) : text :=
  T "Based on the analysis, the estimated potential profit is around $" ++
  str_int amount ++
  T " per unit area. This is an estimate based on crop health and pest risk.".

(** [m.group(1).lower() if m else "unknown"] *)
Definition status (U : unicode) (m : option text) : text :=
  match m with
  | Some w => lower U w
  | None => T "unknown"
  end.

(** [m.group(1).strip() if m else missing] *)
Definition extracted (m : option text) (missing : text) : text :=
  match m with
  | Some g => strip g
  | None => missing
  end.

(** The adjustment of [base_profit], between the two searches and the
    reply. *)
Definition estimate (health_status pest_status : text) : number :=
  let base_profit := Int 1000 in
  let base_profit :=
    if eqb health_status (T "good") then times base_profit 1.2
    else if eqb health_status (T "moderate") then times base_profit 0.9
    else if eqb health_status (T "poor") then times base_profit 0.6
    else base_profit in
  let base_profit :=
    if eqb pest_status (T "low") then times base_profit 1.1
    else if eqb pest_status (T "medium") then times base_profit 0.8
    else if eqb pest_status (T "high") then times base_profit 0.5
    else base_profit in
  base_profit.

(** [not context] *)
Definition empty (s : text) : bool :=
  match s with
  | [] => true
  | _ :: _ => false
  end.

(** The reply, or [None] where the source would raise. *)
Definition get_ai_response (U : unicode) (message context : text) : option text :=
  let message := lower U message in
  if empty context then
    if contains (T "profit") message then Some no_context_profit
    else Some no_context
  else if contains (T "profit") message then
    let health_match := search (health_re U) context in
    let pest_match := search (pest_re U) context in
    let health_status := status U health_match in
    let pest_status := status U pest_match in
    option_map profit_reply (int (estimate health_status pest_status))
  else if contains (T "crop health") message then
    Some (extracted (search crop_section_re context) no_crop_section)
  else if contains (T "soil") message || contains (T "moisture") message then
    Some (extracted (search soil_section_re context) no_soil_section)
  else if contains (T "pest") message then
    Some (extracted (search pest_section_re context) no_pest_section)
  else if contains (T "recommendations") message then
    Some (extracted (search recommendations_re context) no_recommendations)
  else Some capabilities.

End Chat.

(* ------------------------------------------------------------------ *)
(** ** Execution orchestrator: [run_matlab] *)

Module Server.
Import Text Report.

(** A call that returns a value or raises an exception, of which the
    handler keeps [str(e)]. *)
Inductive result (A : Type) : Type :=
| Returns (a : A)
| Raises (e : text).
Arguments Returns {A} a.
Arguments Raises {A} e.

Definition bind {A B : Type} (m : result A) (f : A -> result B) : result B :=
  match m with
  | Returns a => f a
  | Raises e => Raises e
  end.

Notation "x <- m ;; f" := (bind m (fun x => f))
  (at level 61, m at next level, right associativity).

(** What [subprocess.run] comes back with: a completed process, or an
    exception. *)
Inductive spawned : Type :=
| Exited (returncode : Z) (stdout stderr : text)
| Raised (e : text).

Record world : Type := {
  getenv : text -> option text;            (* os.environ *)
  which : text -> bool;                    (* shutil.which(cmd) is not None *)
  subprocess_run : text -> spawned;        (* the shell command line *)
  listdir : result (list text);            (* os.listdir(RESULTS_DIR) *)
  matlab_script_path : text;               (* the project root *)
  utc : clock;
  run_as_script : bool;                    (* __name__ == '__main__' *)
  write_maps : option text                 (* the exception of os.makedirs or of
                                              a map writer, if one raises *)
}.

(** The JSON object handed to [jsonify]: the result, the error of a
    failed engine with its details, or the error of the handler at the
    end of the function. *)
Inductive response : Type :=
| Result (output : text) (images : list text) (full_context : text)
         (mode : text)
| Failed (error details : text)
| Crashed (error : text).

(** [os.getenv(key, default)] *)
Definition getenv_or (w : world) (key default : text) : text :=
  match getenv w key with
  | Some v => v
  | None => default
  end.

(** The [NameError] of a name that is not bound. *)
Definition name_error (name : text) : text :=
  T "name '" ++ name ++ T "' is not defined".

(** The call [generate_demo_results(RESULTS_DIR)] as the handler sees
    it.  When the file runs as a script, [app.run] serves the requests
    before the [def] further down is reached, and the name is not bound.
    Otherwise the function makes the directory, writes the maps and
    returns the text. *)
Definition generated (w : world) : result text :=
  if run_as_script w then Raises (name_error (T "generate_demo_results"))
  else
    match write_maps w with
    | Some e => Raises e
    | None => Returns (generate_demo_results (utc w))
    end.

Definition image_urls (image_files : list text) : list text :=
  map (fun f => T "/results/" ++ f) image_files.

(** [[f for f in os.listdir(RESULTS_DIR) if f.endswith('.png')]] *)
Definition png_files (w : world) : result (list text) :=
  files <- listdir w ;;
  Returns (filter (endswith (T ".png")) files).

Definition not_found_banner : text :=
  T "MATLAB not found on PATH; running in DEMO mode. Set DEMO_MODE=0 and ensure MATLAB_CMD " ++
  T "points to a valid MATLAB binary to run full analysis." ++ nl ++ nl.

Definition failed_banner : text :=
  T "MATLAB command failed or not found; running in DEMO mode instead. Error details:" ++ nl.

(** The shell command: [{matlab_cmd} -batch "cd('{dir}'); addpath(pwd); main;"] *)
Definition command_line (matlab_cmd dir : text) : text :=
  matlab_cmd ++ T " -batch " ++ [DQ] ++ T "cd('" ++ dir ++
  T "'); addpath(pwd); main;" ++ [DQ].

(** [except Exception as e: return jsonify({'error': str(e)})] *)
Definition except (body : result response) : response :=
  match body with
  | Returns r => r
  | Raises e => Crashed e
  end.

Definition run_matlab (U : unicode) (w : world) : response :=
  except (
    if eqb (getenv_or w (T "DEMO_MODE") (T "0")) (T "1") then
      demo_output <- generated w ;;
      image_files <- png_files w ;;
      Returns (Result demo_output (image_urls image_files) demo_output (T "demo"))
    else
      let matlab_script_path_for_cd :=
        replace_char backslash slash (matlab_script_path w) in
      let matlab_cmd := getenv_or w (T "MATLAB_CMD") (T "matlab") in
      if negb (which w matlab_cmd)
         && negb (eqb (getenv_or w (T "STRICT_MATLAB") (T "0")) (T "1")) then
        report <- generated w ;;
        let demo_output := not_found_banner ++ report in
        image_files <- png_files w ;;
        Returns (Result demo_output (image_urls image_files) demo_output (T "demo"))
      else
        let command := command_line matlab_cmd matlab_script_path_for_cd in
        match subprocess_run w command with
        | Raised e => Raises e
        | Exited returncode stdout stderr_ =>
            if negb (returncode =? 0)%Z then
              let stderr := stdout ++ stderr_ in
              if ((contains (T "not found") (lower U stderr)
                   && contains (T "matlab") (lower U stderr))
                  || (returncode =? 127)%Z)
                 && negb (eqb (getenv_or w (T "STRICT_MATLAB") (T "0")) (T "1")) then
                report <- generated w ;;
                let demo_output := failed_banner ++ stderr ++ nl ++ nl ++ report in
                image_files <- png_files w ;;
                Returns (Result demo_output (image_urls image_files) demo_output (T "demo"))
              else Returns (Failed (T "MATLAB script execution failed.") stderr)
            else
              let output := stdout in
              image_files <- png_files w ;;
              Returns (Result output (image_urls image_files) output (T "matlab"))
        end).

End Server.

(* ------------------------------------------------------------------ *)
(** ** The design document's vocabulary

    Definitions that follow the words of the specification; the theorems
    below compare them with the code above. *)

Module Design.
Import Text Re Report Chat Server.

(** *** Orchestrator inputs *)

Definition demo_forced (w : world) : bool :=
  eqb (getenv_or w (T "DEMO_MODE") (T "0")) (T "1").
Definition strict (w : world) : bool :=
  eqb (getenv_or w (T "STRICT_MATLAB") (T "0")) (T "1").
Definition engine (w : world) : text := getenv_or w (T "MATLAB_CMD") (T "matlab").
Definition resolvable (w : world) : bool := which w (engine w).

(** The external invocation of step 3. *)
Definition invocation (w : world) : spawned :=
  subprocess_run w
    (command_line (engine w) (replace_char backslash slash (matlab_script_path w))).

Definition is_demo (r : response) : bool :=
  match r with
  | Result _ _ _ mode => eqb mode (T "demo")
  | _ => false
  end.


(** The addresses of the maps among the files of the results
    directory. *)
Definition map_urls (files : list text) : list text :=
  image_urls (filter (endswith (T ".png")) files).

(** The generator and the directory listing complete, the listing with
    [files]. *)
Definition completes (w : world) (files : list text) : Prop :=
  run_as_script w = false /\ write_maps w = None /\ listdir w = Returns files.

(** The generator or, after it, the directory listing raises [e]. *)
Definition raises (w : world) (e : text) : Prop :=
  (run_as_script w = true /\ e = T "name 'generate_demo_results' is not defined")
  \/ (run_as_script w = false /\ write_maps w = Some e)
  \/ (run_as_script w = false /\ write_maps w = None /\ listdir w = Raises e).

(** The reply of a demo path: the generated report behind a prefix, or
    the handler's error. *)
Definition demo_reply (w : world) (prefix : text) : response :=
  match generated w with
  | Raises e => Crashed e
  | Returns report =>
      match listdir w with
      | Raises e => Crashed e
      | Returns files =>
          Result (prefix ++ report) (map_urls files) (prefix ++ report) (T "demo")
      end
  end.

(** The reply after a run of the engine that printed [out]. *)
Definition real_reply (w : world) (out : text) : response :=
  match listdir w with
  | Raises e => Crashed e
  | Returns files => Result out (map_urls files) out (T "matlab")
  end.

(** The not-found signature as the document words it: the output holds
    "not found" together with the engine's configured command name, or
    the exit code is 127. *)
Definition not_found_signature (w : world) (code : Z) (captured : text) : bool :=
  (contains (T "not found") captured && contains (engine w) captured) || (code =? 127)%Z.

(** The signature the code tests: case-insensitive, and on the fixed
    name [matlab]. *)
Definition matlab_signature (U : unicode) (code : Z) (captured : text) : bool :=
  (contains (T "not found") (lower U captured) && contains (T "matlab") (lower U captured))
  || (code =? 127)%Z.

(** *** Report schema *)

Definition rule (n : nat) : text := repeat 61%N n.

Definition occurrences (title : text) (ls : list text) : nat :=
  length (filter (eqb title) ls).

(** The line right after the first line equal to [title]. *)
Fixpoint following (title : text) (ls : list text) : option text :=
  match ls with
  | l :: rest =>
      if eqb l title then hd_error rest else following title rest
  | [] => None
  end.

Fixpoint position (title : text) (ls : list text) : option nat :=
  match ls with
  | l :: rest => if eqb l title then Some 0 else option_map S (position title rest)
  | [] => None
  end.

Fixpoint ascending (ps : list (option nat)) : bool :=
  match ps with
  | Some a :: ((Some b :: _) as rest) => (a <? b)%nat && ascending rest
  | [Some _] | [] => true
  | _ => false
  end.

Definition underlined (title : text) (ls : list text) : bool :=
  match following title ls with
  | Some u => eqb u (rule (length title))
  | None => false
  end.

(** Every title once, in order, each with an underline of its length. *)
Definition well_sectioned (report : text) : bool :=
  let ls := lines report in
  forallb (fun t => (occurrences t ls =? 1)%nat && underlined t ls) titles
  && ascending (map (fun t => position t ls) titles).

(** *** Query engine *)

(** The profit rule: multipliers by category, anything else neutral. *)
Definition health_multiplier (category : text) : float :=
  if eqb category (T "good") then 1.2%float
  else if eqb category (T "moderate") then 0.9%float
  else if eqb category (T "poor") then 0.6%float
  else 1.0%float.

Definition pest_multiplier (category : text) : float :=
  if eqb category (T "low") then 1.1%float
  else if eqb category (T "medium") then 0.8%float
  else if eqb category (T "high") then 0.5%float
  else 1.0%float.

Definition profit (health pest : text) : option Z :=
  trunc (1000 * health_multiplier health * pest_multiplier pest)%float.

Definition health_category (U : unicode) (report : text) : text :=
  status U (search (health_re U) report).
Definition pest_category (U : unicode) (report : text) : text :=
  status U (search (pest_re U) report).

(** The answers of the five paths. *)
Definition profit_answer (U : unicode) (report : text) : option text :=
  option_map profit_reply (profit (health_category U report) (pest_category U report)).
Definition crop_answer (report : text) : option text :=
  Some (extracted (search crop_section_re report) no_crop_section).
Definition soil_answer (report : text) : option text :=
  Some (extracted (search soil_section_re report) no_soil_section).
Definition pest_answer (report : text) : option text :=
  Some (extracted (search pest_section_re report) no_pest_section).
Definition recommendations_answer (report : text) : option text :=
  Some (extracted (search recommendations_re report) no_recommendations).

(** The ordered keyword predicates on the lower-cased question. *)
Definition rules (U : unicode) : list ((text -> bool) * (text -> option text)) :=
  [ (contains (T "profit"), profit_answer U);
    (contains (T "crop health"), crop_answer);
    (fun q => contains (T "soil") q || contains (T "moisture") q, soil_answer);
    (contains (T "pest"), pest_answer);
    (contains (T "recommendations"), recommendations_answer) ].

Fixpoint first_match (rs : list ((text -> bool) * (text -> option text)))
  (question report : text) : option text :=
  match rs with
  | [] => Some capabilities
  | (matches, answer) :: rest =>
      if matches question then answer report
      else first_match rest question report
  end.

(** A question of the pest path only. *)
Definition asks_pest_only (U : unicode) (question : text) : bool :=
  let q := lower U question in
  contains (T "pest") q && negb (contains (T "profit") q)
  && negb (contains (T "crop health") q)
  && negb (contains (T "soil") q) && negb (contains (T "moisture") q).

(** A text of ASCII characters, and its lower case. *)
Definition is_ascii (c : char) : bool := (c <? 128)%N.
Definition ascii_lower (s : text) : text := map lower_char s.

(** *** Section markers, scanned directly *)

(** The text right after a marker that starts [s]: the title, any white
    space, the underline. *)
Definition marker (title underline s : text) : option text :=
  if startswith title s then
    let s1 := lstrip (drop (length title) s) in
    if startswith underline s1 then Some (drop (length underline) s1)
    else None
  else None.

(** The text after the first marker of [s]. *)
Fixpoint after_marker (title underline s : text) : option text :=
  match marker title underline s with
  | Some rest => Some rest
  | None =>
      match s with
      | [] => None
      | _ :: s' => after_marker title underline s'
      end
  end.

(** [rest] up to the first occurrence of [next]. *)
Definition upto (next rest : text) : option text :=
  option_map (fun k => take k rest) (find next rest).

(** The text between the leftmost marker that has [next] after it, and
    that occurrence of [next]. *)
Fixpoint enclosed (title underline next s : text) : option text :=
  match match marker title underline s with
        | Some rest => upto next rest
        | None => None
        end with
  | Some body => Some body
  | None =>
      match s with
      | [] => None
      | _ :: s' => enclosed title underline next s'
      end
  end.

(** What is left of [s] after the literal [w], compared with [same]. *)
Fixpoint after_literal (same : char -> char -> bool) (w s : text) : option text :=
  match w, s with
  | [], _ => Some s
  | a :: w', c :: s' => if same a c then after_literal same w' s' else None
  | _ :: _, [] => None
  end.

(** The longest beginning of [s] in the class [p]. *)
Fixpoint span (p : char -> bool) (s : text) : text :=
  match s with
  | [] => []
  | c :: s' => if p c then c :: span p s' else []
  end.

(** A labelled field that starts [s]: the label in any case, white
    space, then the word that is the value. *)
Definition field (U : unicode) (label s : text) : option text :=
  match after_literal nocase label s with
  | Some s1 =>
      match span (is_word U) (lstrip s1) with
      | [] => None
      | word => Some word
      end
  | None => None
  end.

(** The value of the first labelled field of [s], from the left. *)
Fixpoint first_field (U : unicode) (label s : text) : option text :=
  match field U label s with
  | Some word => Some word
  | None =>
      match s with
      | [] => None
      | _ :: s' => first_field U label s'
      end
  end.

(** The characters of a rendered integer or time stamp. *)
Definition stamp_char (c : char) : bool :=
  is_digit c || existsb (N.eqb c) (T "-: UTC").

(** The fixed text of the generated report around its two variable
    fields. *)
Definition before_id : text := join nl opening ++ nl ++ T "Report ID: DEMO-".
Definition before_date : text := nl ++ T "Analysis Date: ".
Definition after_date : text := nl ++ join nl remainder.

Definition no_lf (x : char) : bool := negb (x =? LF)%N.

(** *** Matching against a known beginning

    [fails its a]: the pattern cannot match a subject that begins with
    [a], whatever follows; [blank its a]: no match starts inside [a]. *)
Fixpoint fails_star (p : char -> bool) (k : text -> bool) (a : text) : bool :=
  match a with
  | [] => false
  | c :: a' => if p c then fails_star p k a' && k a else k a
  end.

Fixpoint fails (its : pattern) (a : text) {struct its} : bool :=
  match its with
  | [] => false
  | Open :: r | Close :: r => fails r a
  | Chr p :: r =>
      match a with
      | [] => false
      | c :: a' => if p c then fails r a' else true
      end
  | Star _ p :: r => fails_star p (fails r) a
  end.

Fixpoint blank (its : pattern) (a : text) : bool :=
  match a with
  | [] => true
  | _ :: a' => fails its a && blank its a'
  end.

End Design.

(* ------------------------------------------------------------------ *)
(** ** Sample inputs *)

Module Samples.
Import Text Re Report Chat Server Design.

(** The alphanumeric characters of the Latin-1 supplement, with the
    dotted capital and dotless small i, the long s and the Kelvin sign. *)
Definition latin_alnum (c : char) : bool :=
  existsb (N.eqb c) [170; 178; 179; 181; 185; 186; 188; 189; 190; 304; 305; 383; 8490]%N
  || between 192 214 c || between 216 246 c || between 248 255 c.

(** Lower case in the same range: the capitals of the Latin-1
    supplement, the dotted capital i and the Kelvin sign. *)
Definition latin_lowered (before : text) (c : char) (after : text) : text :=
  if between 192 214 c || between 216 222 c then [(c + 32)%N]
  else if (c =? 304)%N then [105; 775]%N
  else if (c =? 8490)%N then [107]%N
  else [c].

(** A database that knows the characters above and nothing else. *)
Definition latin : unicode :=
  {| alnum := fun c => negb (is_space c) && latin_alnum c;
     lowered := latin_lowered;
     alnum_space := fun c H => f_equal (fun b => negb b && latin_alnum c) H |}.

Definition noon : clock :=
  {| epoch := 1762171200; year := 2025; month := 11; day := 3;
     hour := 12; minute := 0; second := 0 |}.

Definition setting (key value : text) (k : text) : option text :=
  if eqb k key then Some value else None.

Definition project_root : text := T "/srv/app/flask_server/..".



(** Another engine is configured, and it exits with its own complaint. *)
Definition octave_world : world :=
  {| getenv := setting (T "MATLAB_CMD") (T "octave");
     which := fun _ => true;
     subprocess_run := fun _ => Exited 1 [] (T "octave: script main not found");
     listdir := Returns [];
     matlab_script_path := project_root;
     utc := noon;
     run_as_script := false;
     write_maps := None |}.

(** The default engine is on the path but its launcher is broken. *)
Definition broken_world : world :=
  {| getenv := fun _ => None;
     which := fun _ => true;
     subprocess_run := fun _ => Exited 1 [] (T "MATLAB: launcher NOT FOUND");
     listdir := Returns [T "ndvi_map.png"];
     matlab_script_path := project_root;
     utc := noon;
     run_as_script := false;
     write_maps := None |}.


Definition bare_world : world :=
  {| getenv := fun _ => None;
     which := fun _ => false;
     subprocess_run := fun _ => Raised (T "unreachable");
     listdir := Returns [];
     matlab_script_path := project_root;
     utc := noon;
     run_as_script := false;
     write_maps := None |}.

(** The same configurations when the file is run as a script. *)
Definition as_script (w : world) : world :=
  {| getenv := getenv w; which := which w; subprocess_run := subprocess_run w;
     listdir := listdir w; matlab_script_path := matlab_script_path w; utc := utc w;
     run_as_script := true; write_maps := write_maps w |}.





(** A report with one pest marker, one recommendations marker, and the
    word RECOMMENDATIONS in the text between them. *)
Definition cross_reference : text := nl ++ T "See RECOMMENDATIONS below." ++ nl ++ nl.

Definition cross_referenced_report : text :=
  T "PEST RISK ANALYSIS" ++ nl ++ T "==================" ++ cross_reference ++
  T "RECOMMENDATIONS" ++ nl ++ T "===============" ++ nl ++ T "Scout weekly." ++ nl.

(** A report whose white space is the no-break space. *)
Definition nbsp : char := 160%N.

Definition nbsp_report : text :=
  T "PEST RISK ANALYSIS" ++ nbsp :: T "==================" ++ nbsp :: nl ++
  T "Aphids low." ++ nbsp :: nl ++
  T "RECOMMENDATIONS" ++ nl ++ T "===============" ++ nl ++ T "Scout weekly." ++ nl.

(** Reports with the two fields of the profit rule. *)
Definition good_low_report : text :=
  T "Overall Crop Health Status: Good" ++ nl ++ T "Overall Pest Risk Level: Low" ++ nl.

Definition poor_first_report : text :=
  T "Overall Crop Health Status: Poor" ++ nl ++
  T "Overall Crop Health Status: Good" ++ nl ++
  T "Overall Pest Risk Level: Low" ++ nl.

Definition goodness_report : text :=
  T "Overall Crop Health Status: Goodness" ++ nl ++ T "Overall Pest Risk Level: Low" ++ nl.

(** The health field in lower case with a long s in the label, a
    no-break space before the value and an accented letter ending the
    value. *)
Definition accented_report : text :=
  T "overall crop health " ++ 383%N :: T "tatus:" ++ nbsp :: T "Good" ++ 233%N :: nl ++
  T "Overall Pest Risk Level: Low" ++ nl.

End Samples.


(* ------------------------------------------------------------------ *)
(** ** Rasters: what the server uses of Pillow's [Image] *)

Module Pil.

(** An image: its size and its pixels, row by row. *)
Record image (A : Type) : Type := {
  width : nat;
  height : nat;
  data : list A
}.
Arguments width {A} _.
Arguments height {A} _.
Arguments data {A} _.

(** [Image.new(mode, (w, h))]: every pixel is [fill]. *)
Definition new {A : Type} (w h : nat) (fill : A) : image A :=
  {| width := w; height := h; data := repeat fill (w * h) |}.

Definition inside {A : Type} (img : image A) (x y : nat) : bool :=
  (x <? width img)%nat && (y <? height img)%nat.

(** [img.getpixel((x, y))]; [None] for the [IndexError] outside. *)
Definition getpixel {A : Type} (img : image A) (x y : nat) : option A :=
  if inside img x y then nth_error (data img) (y * width img + x) else None.

Fixpoint update {A : Type} (l : list A) (i : nat) (v : A) : list A :=
  match l, i with
  | [], _ => []
  | _ :: l', O => v :: l'
  | a :: l', S i' => a :: update l' i' v
  end.

(** [img.putpixel((x, y), v)] *)
Definition putpixel {A : Type} (img : image A) (x y : nat) (v : A) : option (image A) :=
  if inside img x y then
    Some {| width := width img; height := height img;
            data := update (data img) (y * width img + x) v |}
  else None.

(** The data of [img] fills its size. *)
Definition sized {A : Type} (img : image A) : Prop :=
  length (data img) = (width img * height img)%nat.

(** [Image.frombytes('L', (w, h), bytes)], for data of exactly [w * h]
    bytes; with less data Pillow raises. *)
Definition frombytes (w h : nat) (bytes : list Z) : option (image Z) :=
  if (length bytes =? w * h)%nat then
    Some {| width := w; height := h; data := bytes |}
  else None.

End Pil.

(* ------------------------------------------------------------------ *)
(** ** The synthetic maps of [generate_demo_results] *)

Module Maps.
Import Text Palette Chat Pil.

(** [for x in xs: s = body(x, s)], stopping at the first exception. *)
Fixpoint for_each {S : Type} (xs : list nat) (body : nat -> S -> option S) (s : S)
  : option S :=
  match xs with
  | [] => Some s
  | x :: rest =>
      match body x s with
      | Some s' => for_each rest body s'
      | None => None
      end
  end.

(** [range(n)] *)
Definition range (n : nat) : list nat := seq 0 n.

Definition rgb : Type := (Z * Z * Z)%type.

(** [int(c * 255)] for a channel [c]. *)
Definition channel (c : float) : option Z := trunc (c * 255)%float.

(** The colour of one gray level in [apply_jet_palette]:
    [v = p / 255.0; r, g, b = jet_rgb(v); (int(r*255), int(g*255), int(b*255))]. *)
Definition pixel_colour (p : Z) : option rgb :=
  let v := (as_float (Int p) / 255.0)%float in
  let '(r, g, b) := jet_rgb v in
  match channel r, channel g, channel b with
  | Some r', Some g', Some b' => Some (r', g', b')
  | _, _, _ => None
  end.

Definition apply_jet_palette (gray_img : image Z) : option (image rgb) :=
  let w := width gray_img in
  let h := height gray_img in
  let out := new w h (0, 0, 0)%Z in
  for_each (range h) (fun y out =>
    for_each (range w) (fun x out =>
      match getpixel gray_img x y with
      | Some p =>
          match pixel_colour p with
          | Some colour => putpixel out x y colour
          | None => None
          end
      | None => None
      end) out) out.

(** The three bands of [save_discrete_rgb] on an image [w] pixels wide. *)
Definition band (w x : nat) : rgb :=
  if (x <? w / 3)%nat then (0, 200, 0)%Z
  else if (x <? 2 * w / 3)%nat then (220, 220, 0)%Z
  else (220, 0, 0)%Z.

(** The image [save_discrete_rgb] saves. *)
Definition save_discrete_rgb (w h : nat) : option (image rgb) :=
  let img := new w h (0, 0, 0)%Z in
  for_each (range h) (fun y img =>
    for_each (range w) (fun x img =>
      let color := band w x in
      putpixel img x y color) img) img.

(** [max(0, min(255, v))] on integers. *)
Definition clamp_byte (v : Z) : Z := Z.max 0 (Z.min 255 v).

(** One byte of [save_colormap]: the gradient of column [x], blended with
    the draw [noise]. *)
Definition gray_byte (w x : nat) (noise : Z) : option Z :=
  match trunc (255 * (as_float (Int (Z.of_nat x)) / as_float (Int (Z.of_nat (w - 1)))))%float with
  | Some v =>
      match trunc (0.7 * as_float (Int v) + 0.3 * as_float (Int noise))%float with
      | Some v => Some (clamp_byte v)
      | None => None
      end
  | None => None
  end.

(** [bytearray.append(b)]: [ValueError] unless [0 <= b < 256]. *)
Definition append_byte (bytes : list Z) (b : Z) : option (list Z) :=
  if ((0 <=? b) && (b <? 256))%Z then Some (bytes ++ [b]) else None.

(** The image [save_colormap] saves.  [randint k] is the [k]-th value
    that [rnd.randint(0, 255)] returns for the generator seeded with the
    map's seed; the loop state is the byte array and the number of draws
    made. *)
Definition save_colormap (w h : nat) (randint : nat -> Z) : option (image rgb) :=
  match
    for_each (range h) (fun y st =>
      for_each (range w) (fun x st =>
        let '(bytes, k) := st in
        match gray_byte w x (randint k) with
        | Some b =>
            match append_byte bytes b with
            | Some bytes' => Some (bytes', S k)
            | None => None
            end
        | None => None
        end) st) ([], O)
  with
  | Some (bytes, _) =>
      match frombytes w h bytes with
      | Some img => apply_jet_palette img
      | None => None
      end
  | None => None
  end.

(** [a; b], where [a] may raise. *)
Definition and_then {A B : Type} (a : option A) (b : A -> option B) : option B :=
  match a with
  | Some x => b x
  | None => None
  end.

(** The files [generate_demo_results] writes when Pillow is there, in
    order: six pseudo-colour maps, seeded 1 to 6, two banded maps, and a
    seventh pseudo-colour map.  [random seed] is the stream of draws of
    [random.Random(seed)]. *)
Definition generate_demo_maps (pillow : bool) (random : Z -> nat -> Z)
  : option (list (text * image rgb)) :=
  if pillow then
    let w := 256%nat in
    let h := 256%nat in
    let save_colormap name seed :=
      option_map (fun rgb => (name ++ T ".png", rgb)) (save_colormap w h (random seed)) in
    let save_discrete_rgb name :=
      option_map (fun img => (name ++ T ".png", img)) (save_discrete_rgb w h) in
    and_then (save_colormap (T "ndvi_map") 1%Z) (fun f1 =>
    and_then (save_colormap (T "gndvi_map") 2%Z) (fun f2 =>
    and_then (save_colormap (T "ndre_map") 3%Z) (fun f3 =>
    and_then (save_colormap (T "savi_map") 4%Z) (fun f4 =>
    and_then (save_colormap (T "evi_map") 5%Z) (fun f5 =>
    and_then (save_colormap (T "soil_condition_map") 6%Z) (fun f6 =>
    and_then (save_discrete_rgb (T "crop_health_map")) (fun f7 =>
    and_then (save_discrete_rgb (T "pest_risk_map")) (fun f8 =>
    and_then (save_colormap (T "pest_risk_score_map") 7%Z) (fun f9 =>
    Some [f1; f2; f3; f4; f5; f6; f7; f8; f9])))))))))
  else Some [].

(** One step of a loop that gives the pixel at [(x, y)] its colour. *)
Definition paint {A : Type} (colour : nat -> nat -> option A) (y x : nat) (img : image A)
  : option (image A) :=
  match colour x y with
  | Some v => putpixel img x y v
  | None => None
  end.

(** The byte [save_colormap] writes for column [x] at the draw [k], the
    bytes of a row that starts at the draw [k], and the bytes of the rows
    [ys]. *)
Definition byte_at (w : nat) (randint : nat -> Z) (x k : nat) : Z :=
  match gray_byte w x (randint k) with
  | Some b => b
  | None => 0%Z
  end.

Fixpoint row_of (w : nat) (randint : nat -> Z) (xs : list nat) (k : nat) : list Z :=
  match xs with
  | [] => []
  | x :: rest => byte_at w randint x k :: row_of w randint rest (S k)
  end.

Fixpoint rows_of (w : nat) (randint : nat -> Z) (ys : list nat) (k : nat) : list Z :=
  match ys with
  | [] => []
  | _ :: rest => row_of w randint (range w) k ++ rows_of w randint rest (k + w)
  end.

(** The body of the inner loop of [save_colormap]. *)
Definition next_byte (w : nat) (randint : nat -> Z) (x : nat) (st : list Z * nat)
  : option (list Z * nat) :=
  let '(bytes, k) := st in
  match gray_byte w x (randint k) with
  | Some b =>
      match append_byte bytes b with
      | Some bytes' => Some (bytes', S k)
      | None => None
      end
  | None => None
  end.

(** No name occurs twice in [l]. *)
Fixpoint distinct (l : list text) : bool :=
  match l with
  | [] => true
  | x :: rest => negb (existsb (eqb x) rest) && distinct rest
  end.

(** *** Checks over the table of gray levels *)

(** The gray levels of an 8-bit image. *)
Definition levels : list Z := map Z.of_nat (seq 0 256).

Definition red (c : rgb) : Z := fst (fst c).
Definition green (c : rgb) : Z := snd (fst c).
Definition blue (c : rgb) : Z := snd c.

Definition is_byte (b : Z) : bool := ((0 <=? b) && (b <=? 255))%Z.

(** A colour of bytes, with one channel at 255 and one at 0. *)
Definition saturated (c : rgb) : bool :=
  is_byte (red c) && is_byte (green c) && is_byte (blue c)
  && (Z.max (red c) (Z.max (green c) (blue c)) =? 255)%Z
  && (Z.min (red c) (Z.min (green c) (blue c)) =? 0)%Z.

Definition colour_ok (p : Z) : bool :=
  match pixel_colour p with
  | Some c => saturated c
  | None => false
  end.

Definition rgb_eqb (c d : rgb) : bool :=
  ((red c =? red d) && (green c =? green d) && (blue c =? blue d))%Z.

(** From a darker level [p] to a brighter one [q]: another colour, no
    less red, no more blue. *)
Definition order_ok (p q : Z) : bool :=
  match pixel_colour p, pixel_colour q with
  | Some c, Some d =>
      negb (rgb_eqb c d) && (red c <=? red d)%Z && (blue d <=? blue c)%Z
  | _, _ => false
  end.

(** The byte of column [x] for the draw [n], without the clamp. *)
Definition blend (x n : Z) : option Z :=
  trunc (0.7 * as_float (Int x) + 0.3 * as_float (Int n))%float.

Definition gray_ok (x n : Z) : bool :=
  match gray_byte 256 (Z.to_nat x) n, blend x n with
  | Some b, Some b' =>
      (b =? b')%Z && is_byte b
      && (7 * x + 3 * n - 10 <=? 10 * b)%Z && (10 * b <=? 7 * x + 3 * n)%Z
  | _, _ => false
  end.

End Maps.

(* ------------------------------------------------------------------ *)
(** ** The sections of a report and the questions that reach them *)

Module Sections.
Import Text Re Report Chat Server Design.

(** The text between the first marker of [s] and the first [next] after
    it. *)
Definition section_text (title underline next s : text) : option text :=
  match after_marker title underline s with
  | Some rest => upto next rest
  | None => None
  end.

(** A question that reaches the rule of a keyword: none of the earlier
    keywords occurs in it. *)
Definition asks_crop (U : unicode) (question : text) : bool :=
  let q := lower U question in
  contains (T "crop health") q && negb (contains (T "profit") q).

Definition asks_soil (U : unicode) (question : text) : bool :=
  let q := lower U question in
  (contains (T "soil") q || contains (T "moisture") q)
  && negb (contains (T "profit") q) && negb (contains (T "crop health") q).

Definition asks_recommendations (U : unicode) (question : text) : bool :=
  let q := lower U question in
  contains (T "recommendations") q
  && negb (contains (T "profit") q) && negb (contains (T "crop health") q)
  && negb (contains (T "soil") q) && negb (contains (T "moisture") q)
  && negb (contains (T "pest") q).

(** The characters of the rendered integer and of the digits of the date. *)
Definition numeric_char (c : char) : bool :=
  is_digit c || existsb (N.eqb c) (T "-: ").

(** The date without its zone suffix. *)
Definition date_digits (c : clock) : text :=
  pad 4 (year c) ++ T "-" ++ pad 2 (month c) ++ T "-" ++ pad 2 (day c) ++ T " " ++
  pad 2 (hour c) ++ T ":" ++ pad 2 (minute c) ++ T ":" ++ pad 2 (second c).

(** The lines of the four sections the chat extracts from a generated
    report, without the blank lines around them. *)
Definition crop_lines : list text := firstn 14 (skipn 5 remainder).
Definition soil_lines : list text := firstn 7 (skipn 22 remainder).
Definition pest_lines : list text := firstn 9 (skipn 32 remainder).
Definition recommendation_lines : list text := firstn 13 (skipn 44 remainder).

(** The two demo paths whose text does not embed captured output: the
    forced one, and the one taken when the engine is missing. *)
Definition plain_demo (w : world) : bool :=
  demo_forced w || (negb (resolvable w) && negb (strict w)).

End Sections.

(* ------------------------------------------------------------------ *)
(** ** More sample inputs *)

Module Cases.
Import Text Report Server Pil Maps Samples.

(** A report with three sections and no recommendations. *)
Definition three_sections : text :=
  T "CROP HEALTH ANALYSIS" ++ nl ++ T "====================" ++ nl ++
  T "NDVI: 0.61 (Healthy)" ++ nl ++ nl ++
  T "SOIL CONDITION ANALYSIS" ++ nl ++ T "=======================" ++ nl ++
  T "Moisture: 0.18" ++ nl ++ nl ++
  T "PEST RISK ANALYSIS" ++ nl ++ T "==================" ++ nl ++
  T "Aphids: 0.42" ++ nl.

(** A report with the two fields of the profit rule, in capitals. *)
Definition poor_and_high : text :=
  T "OVERALL CROP HEALTH STATUS: POOR" ++ nl ++ T "OVERALL PEST RISK LEVEL: HIGH" ++ nl.

(** A gray image of two by two pixels. *)
Definition four_levels : image Z :=
  {| width := 2; height := 2; data := [0; 85; 170; 255]%Z |}.

(** A generator that always draws 128. *)
Definition steady : nat -> Z := fun _ => 128%Z.

(** The engine ran and printed a report. *)
Definition engine_world : world :=
  {| getenv := fun _ => None;
     which := fun _ => true;
     subprocess_run := fun _ => Exited 0 (T "Analysis complete.") (T "warning: license expires soon");
     listdir := Returns [T "ndvi_map.png"; T "main.log"; T "evi_map.png"];
     matlab_script_path := project_root;
     utc := noon;
     run_as_script := false;
     write_maps := None |}.

End Cases.

(* ------------------------------------------------------------------ *)
(** * Properties *)

Import Text Re Palette Report Chat Server Design Samples Pil Maps Sections Cases.

(** Boolean tests on code points, read as arithmetic facts. *)
Ltac props :=
  repeat match goal with
  | H : _ /\ _ |- _ => destruct H
  | H : _ \/ _ |- _ => destruct H
  | H : false = true |- _ => discriminate H
  | H : true = false |- _ => discriminate H
  | H : andb _ _ = true |- _ => apply andb_prop in H
  | H : orb _ _ = true |- _ => apply orb_prop in H
  | H : andb _ _ = false |- _ => apply andb_false_iff in H
  | H : orb _ _ = false |- _ => apply orb_false_elim in H
  | H : negb _ = true |- _ => apply negb_true_iff in H
  | H : negb _ = false |- _ => apply negb_false_iff in H
  | H : (_ =? _)%N = true |- _ => apply N.eqb_eq in H
  | H : (_ =? _)%N = false |- _ => apply N.eqb_neq in H
  | H : (_ <=? _)%N = true |- _ => apply N.leb_le in H
  | H : (_ <=? _)%N = false |- _ => apply N.leb_gt in H
  | H : (_ <? _)%N = true |- _ => apply N.ltb_lt in H
  | H : (_ <? _)%N = false |- _ => apply N.ltb_ge in H
  end.

(** ** Strings *)

Section Strings.

Lemma eqb_refl (a : text) : eqb a a = true.
Proof. induction a as [|c a IH]; simpl; [reflexivity|]. now rewrite N.eqb_refl. Qed.

Lemma eqb_eq (a b : text) : eqb a b = true <-> a = b.
Proof.
  split; [|intros ->; apply eqb_refl].
  revert b. induction a as [|x a IH]; intros [|y b]; simpl; try discriminate; auto.
  intros H. apply andb_prop in H. destruct H as [H1 H2].
  apply N.eqb_eq in H1. subst. f_equal. now apply IH.
Qed.

Lemma eqb_neq (a b : text) : a <> b -> eqb a b = false.
Proof.
  intros H. destruct (eqb a b) eqn:E; [|reflexivity].
  apply eqb_eq in E. contradiction.
Qed.

Lemma nonempty (s : text) : s <> [] -> empty s = false.
Proof. destruct s; [contradiction | reflexivity]. Qed.

(** Lower-casing leaves nothing to the database on ASCII text. *)
Lemma lower_from_ascii (U : unicode) (before s : text) :
  forallb is_ascii s = true -> lower_from U before s = ascii_lower s.
Proof.
  revert before. induction s as [|c s IH]; intros before; simpl; [reflexivity|].
  intros H. apply andb_prop in H. destruct H as [H1 H2].
  unfold is_ascii in H1. rewrite H1. simpl. f_equal. now apply IH.
Qed.

Lemma lower_ascii (U : unicode) (s : text) :
  forallb is_ascii s = true -> lower U s = ascii_lower s.
Proof. apply lower_from_ascii. Qed.

End Strings.

(** ** The matcher *)

Section Matcher.

(** A literal outside the group consumes itself or fails. *)
Lemma exec_literal same (w : text) (r : pattern) (s acc : text) :
  exec (literal same w ++ r) s false acc =
  match after_literal same w s with
  | Some s' => exec r s' false acc
  | None => None
  end.
Proof.
  revert s. induction w as [|a w IH]; intros s; simpl.
  - reflexivity.
  - destruct s as [|c s]; [reflexivity|].
    destruct (same a c); [apply IH | reflexivity].
Qed.

Lemma after_exact (w s : text) :
  after_literal exactly w s =
  if startswith w s then Some (drop (length w) s) else None.
Proof.
  revert s. induction w as [|a w IH]; intros s; simpl.
  - now destruct s.
  - destruct s as [|c s]; [reflexivity|]. unfold exactly at 1.
    destruct (a =? c)%N; simpl; [apply IH | reflexivity].
Qed.

(** A greedy star outside the group, in front of a continuation that
    rejects the characters of the class: backtracking cannot help, the
    whole run is consumed. *)
Lemma star_greedy_run (p : char -> bool) (k : text -> text -> option text)
  (s acc : text) :
  (forall c s' a, p c = true -> k (c :: s') a = None) ->
  star true p false k s acc = k (drop (length (span p s)) s) acc.
Proof.
  intros Hk. induction s as [|c s IH]; simpl.
  - reflexivity.
  - destruct (p c) eqn:Hc; simpl; [|reflexivity].
    rewrite IH. destruct (k _ acc) eqn:E; [reflexivity|].
    now apply Hk.
Qed.

Lemma lstrip_span (s : text) :
  lstrip s = drop (length (span is_space s)) s.
Proof.
  induction s as [|c s IH]; simpl; [reflexivity|].
  destruct (is_space c); simpl; [exact IH | reflexivity].
Qed.

(** A greedy star inside the group, at the end of the pattern: the
    group takes the longest run. *)
Lemma star_greedy_group (p : char -> bool) (s acc : text) :
  star true p true (fun _ a => Some a) s acc = Some (acc ++ span p s).
Proof.
  revert acc. induction s as [|c s IH]; intros acc; simpl.
  - now rewrite app_nil_r.
  - destruct (p c); [|now rewrite app_nil_r].
    rewrite IH. unfold push. now rewrite <- app_assoc.
Qed.

Lemma any_all (c : char) : any c = true.
Proof. unfold any. now destruct (is_space c). Qed.

Lemma exec_close_lit (next s acc : text) :
  exec (Close :: lit next) s true acc = if startswith next s then Some acc else None.
Proof.
  simpl. unfold lit.
  rewrite <- (app_nil_r (literal exactly next)), exec_literal, after_exact.
  now destruct (startswith next s).
Qed.

(** The lazy star of the section patterns: the group is the text up to
    the first occurrence of the closing literal. *)
Lemma star_lazy_find (next : text) (k : text -> text -> option text)
  (s acc : text) :
  (forall s' a, k s' a = if startswith next s' then Some a else None) ->
  star false any true k s acc = option_map (fun n => acc ++ take n s) (find next s).
Proof.
  intros K. revert acc. induction s as [|c s IH]; intros acc; simpl.
  - rewrite K. destruct (startswith next []); simpl; [now rewrite app_nil_r | reflexivity].
  - rewrite any_all, K. destruct (startswith next (c :: s)); simpl.
    + now rewrite app_nil_r.
    + rewrite IH. unfold push. destruct (find next s); simpl; [|reflexivity].
      now rewrite <- app_assoc.
Qed.

(** A section pattern, anchored: the marker, then the text up to the
    closing title. *)
Lemma exec_section (title next : text) (c0 : char) (u s : text) :
  is_space c0 = false ->
  exec (section title (c0 :: u) next) s false [] =
  match marker title (c0 :: u) s with
  | Some rest => upto next rest
  | None => None
  end.
Proof.
  intros Hc0. unfold section, marker, lit.
  rewrite exec_literal, after_exact.
  destruct (startswith title s); [|reflexivity].
  change (exec ([Star true is_space] ++ ?r) ?x false [])
    with (star true is_space false (fun s' acc' => exec r s' false acc') x []).
  rewrite star_greedy_run.
  - rewrite <- lstrip_span, exec_literal, after_exact.
    destruct (startswith (c0 :: u) _); [|reflexivity].
    change (exec ([Open; Star false any; Close] ++ ?r) ?x false [])
      with (star false any true (fun s' acc' => exec (Close :: r) s' true acc') x []).
    rewrite (star_lazy_find next).
    + unfold upto. now destruct (find next _).
    + intros s' a. apply exec_close_lit.
  - intros c s' a Hc. simpl. unfold exactly at 1.
    destruct (c0 =? c)%N eqn:E; [|reflexivity].
    apply N.eqb_eq in E. subst c. congruence.
Qed.

Lemma search_section (title next : text) (c0 : char) (u s : text) :
  is_space c0 = false ->
  search (section title (c0 :: u) next) s = enclosed title (c0 :: u) next s.
Proof.
  intros Hc0. induction s as [|c s IH].
  - simpl search. rewrite exec_section by assumption. simpl.
    now destruct (match marker title (c0 :: u) [] with Some r => _ | None => _ end).
  - simpl search. rewrite exec_section by assumption. simpl enclosed.
    destruct (match marker title (c0 :: u) (c :: s) with Some r => _ | None => _ end);
      [reflexivity | exact IH].
Qed.

(** With the first marker in hand, and the closing title after it, the
    leftmost enclosed text is the one after that marker. *)
Lemma enclosed_first (title underline next s rest : text) (n : nat) :
  after_marker title underline s = Some rest ->
  find next rest = Some n ->
  enclosed title underline next s = Some (take n rest).
Proof.
  intros Hm Hf. induction s as [|c s IH]; simpl in *.
  - destruct (marker title underline []); [|discriminate].
    injection Hm as ->. unfold upto. now rewrite Hf.
  - destruct (marker title underline (c :: s)).
    + injection Hm as ->. unfold upto. now rewrite Hf.
    + now apply IH.
Qed.

Lemma enclosed_none (title underline next s : text) :
  after_marker title underline s = None ->
  enclosed title underline next s = None.
Proof.
  induction s as [|c s IH]; simpl.
  - now destruct (marker title underline []).
  - destruct (marker title underline (c :: s)); [discriminate | exact IH].
Qed.

(** *** Matching against a known beginning *)

Lemma fails_star_sound (gr : bool) (p : char -> bool) (g : bool)
  (kf : text -> bool) (k : text -> text -> option text) (a : text) :
  (forall a', kf a' = true -> forall t acc, k (a' ++ t) acc = None) ->
  fails_star p kf a = true ->
  forall t acc, star gr p g k (a ++ t) acc = None.
Proof.
  intros Hk. induction a as [|c a IH]; simpl; [discriminate|].
  intros H t acc. destruct (p c).
  - apply andb_prop in H. destruct H as [H1 H2].
    specialize (Hk _ H2 t). simpl in Hk.
    destruct gr; rewrite IH, ?Hk; auto.
  - now apply (Hk (c :: a)).
Qed.

Lemma fails_sound (its : pattern) (a : text) :
  fails its a = true -> forall t g acc, exec its (a ++ t) g acc = None.
Proof.
  revert a. induction its as [|[p|gr p| |] r IH]; intros a; simpl.
  - discriminate.
  - destruct a as [|c a]; [discriminate|]. simpl.
    destruct (p c); intros H t g acc; [now apply IH | reflexivity].
  - intros H t g acc. apply (fails_star_sound gr p g (fails r)); [|assumption].
    intros a' Ha' t' acc'. now apply IH.
  - intros H t g acc. now apply IH.
  - intros H t g acc. now apply IH.
Qed.

Lemma blank_search (its : pattern) (a t : text) :
  blank its a = true -> search its (a ++ t) = search its t.
Proof.
  induction a as [|c a IH]; simpl; [reflexivity|].
  intros H. apply andb_prop in H. destruct H as [H1 H2].
  change (c :: a ++ t) with ((c :: a) ++ t).
  rewrite (fails_sound _ _ H1). now apply IH.
Qed.

(** Text whose characters all miss the first class of the pattern. *)
Lemma blank_all (p : char -> bool) (r : pattern) (v : text) :
  forallb (fun c => negb (p c)) v = true -> blank (Chr p :: r) v = true.
Proof.
  induction v as [|c v IH]; simpl; [reflexivity|].
  intros H. apply andb_prop in H. destruct H as [H1 H2].
  apply negb_true_iff in H1. rewrite H1. now apply IH.
Qed.

End Matcher.

(** ** Character classes *)

Section Classes.

Lemma space_not_word (U : unicode) (c : char) : is_space c = true -> is_word U c = false.
Proof.
  intros H. unfold is_word, isalnum. destruct (c <? 128)%N eqn:E.
  - destruct (_ || (c =? 95)%N) eqn:F; [exfalso | reflexivity].
    unfold is_space, is_upper, is_lower, is_digit, between in H, F.
    simpl existsb in H. props; subst; lia.
  - rewrite (alnum_space U c H). simpl.
    apply N.eqb_neq. apply N.ltb_ge in E. lia.
Qed.

(** Under [re.IGNORECASE] an ASCII character matches a letter of the
    pattern when their lower cases agree. *)
Lemma nocase_ascii (a c : char) :
  is_ascii c = true -> nocase a c = (lower_char a =? lower_char c)%N.
Proof.
  unfold is_ascii, nocase, fold. intros H.
  destruct ((c =? 304) || (c =? 305))%N eqn:E1; [props; subst; lia|].
  destruct (c =? 383)%N eqn:E2; [props; subst; lia|].
  destruct (c =? 8490)%N eqn:E3; [props; subst; lia|].
  reflexivity.
Qed.

Lemma stamp_ascii (c : char) : stamp_char c = true -> is_ascii c = true.
Proof.
  unfold stamp_char, is_digit, between, is_ascii. simpl existsb. intros H.
  apply N.ltb_lt. props; subst; lia.
Qed.

Lemma stamp_lower (c : char) : stamp_char c = true -> lower_char c <> 111%N.
Proof.
  unfold stamp_char, is_digit, lower_char, is_upper, between. simpl existsb. intros H.
  destruct ((65 <=? c)%N && (c <=? 90)%N) eqn:E; props; subst; lia.
Qed.

Lemma stamp_not_o (c : char) : stamp_char c = true -> negb (nocase 79%N c) = true.
Proof.
  intros H. rewrite (nocase_ascii _ _ (stamp_ascii c H)).
  apply negb_true_iff, N.eqb_neq. intros E. now apply (stamp_lower c H).
Qed.


Lemma stamp_not_lf (c : char) : stamp_char c = true -> no_lf c = true.
Proof.
  unfold stamp_char, is_digit, between, no_lf, LF. simpl existsb. intros H.
  apply negb_true_iff, N.eqb_neq. props; subst; lia.
Qed.

Lemma digit_stamp (c : char) : is_digit c = true -> stamp_char c = true.
Proof. unfold stamp_char. now intros ->. Qed.

Lemma forallb_impl (p q : char -> bool) (s : text) :
  (forall c, p c = true -> q c = true) -> forallb p s = true -> forallb q s = true.
Proof.
  intros Hpq. induction s as [|c s IH]; simpl; [reflexivity|].
  intros H. apply andb_prop in H. destruct H as [H1 H2].
  now rewrite (Hpq _ H1), IH.
Qed.

Lemma digits_uint (d : Decimal.uint) :
  forallb is_digit (T (NilEmpty.string_of_uint d)) = true.
Proof. induction d; simpl; auto. Qed.

Lemma stamp_uint (d : Decimal.uint) :
  forallb stamp_char (T (NilZero.string_of_uint d)) = true.
Proof.
  apply (forallb_impl is_digit); [exact digit_stamp|].
  destruct d; try reflexivity; apply (digits_uint (_ d)).
Qed.

Lemma stamp_str_int (z : Z) : forallb stamp_char (str_int z) = true.
Proof.
  unfold str_int, NilZero.string_of_int. destruct (Z.to_int z) as [d|d].
  - apply stamp_uint.
  - change (T (String "-" (NilZero.string_of_uint d)))
      with (45%N :: T (NilZero.string_of_uint d)).
    simpl forallb. now rewrite stamp_uint.
Qed.

Lemma stamp_zeros (k : nat) : forallb stamp_char (zeros k) = true.
Proof. induction k; simpl; auto. Qed.

Lemma stamp_pad (k : nat) (n : N) : forallb stamp_char (pad k n) = true.
Proof. unfold pad, str_nat. now rewrite forallb_app, stamp_zeros, stamp_uint. Qed.

Lemma stamp_strftime (c : clock) : forallb stamp_char (strftime c) = true.
Proof.
  unfold strftime. repeat (rewrite forallb_app, ?stamp_pad; simpl). reflexivity.
Qed.

End Classes.

(** ** The generated report *)

Section Generated.

Lemma report_shape (c : clock) :
  generate_demo_results c =
  before_id ++ str_int (epoch c) ++ before_date ++ strftime c ++ after_date.
Proof.
  unfold generate_demo_results, before_id, before_date, after_date, id_line, date_line.
  change (join nl (opening ++ ?x :: ?y :: remainder))
    with (join nl opening ++ nl ++ x ++ nl ++ y ++ nl ++ join nl remainder).
  now rewrite <- !app_assoc.
Qed.

(** A search whose first class misses the characters of the two
    variable fields, and that cannot start in the fixed text before
    them, only sees the fixed text after the date. *)
Lemma search_generated (p : char -> bool) (r : pattern) (c : clock) :
  (forall x, stamp_char x = true -> negb (p x) = true) ->
  blank (Chr p :: r) before_id = true ->
  blank (Chr p :: r) before_date = true ->
  search (Chr p :: r) (generate_demo_results c) = search (Chr p :: r) after_date.
Proof.
  intros Hp H1 H2. rewrite report_shape.
  rewrite (blank_search _ before_id) by assumption.
  rewrite (blank_search _ (str_int _)).
  2:{ apply blank_all, (forallb_impl stamp_char); [exact Hp | apply stamp_str_int]. }
  rewrite (blank_search _ before_date) by assumption.
  rewrite (blank_search _ (strftime _)).
  2:{ apply blank_all, (forallb_impl stamp_char); [exact Hp | apply stamp_strftime]. }
  reflexivity.
Qed.

Lemma labelled_head (U : unicode) (a : char) (label : text) :
  labelled U (a :: label) =
  Chr (nocase a) ::
    (lit_i label ++ [Star true is_space; Open; Chr (is_word U); Star true (is_word U); Close]).
Proof. reflexivity. Qed.

Lemma health_not_generated (U : unicode) (c : clock) :
  search (health_re U) (generate_demo_results c) = None.
Proof.
  unfold health_re.
  change health_label with (79%N :: T "verall Crop Health Status:").
  rewrite labelled_head.
  rewrite search_generated; [| exact stamp_not_o | | ]; now vm_compute.
Qed.

Lemma pest_not_generated (U : unicode) (c : clock) :
  search (pest_re U) (generate_demo_results c) = None.
Proof.
  unfold pest_re.
  change pest_label with (79%N :: T "verall Pest Risk Level:").
  rewrite labelled_head.
  rewrite search_generated; [| exact stamp_not_o | | ]; now vm_compute.
Qed.




(** *** Lines *)

Lemma split_from_pass (cur v t : text) :
  forallb no_lf v = true -> split_from cur (v ++ t) = split_from (cur ++ v) t.
Proof.
  revert cur. induction v as [|c v IH]; intros cur; simpl.
  - now rewrite app_nil_r.
  - intros H. apply andb_prop in H. destruct H as [H1 H2].
    apply negb_true_iff in H1. rewrite H1, IH by assumption.
    now rewrite <- app_assoc.
Qed.

Lemma split_from_lf (cur t : text) :
  split_from cur (nl ++ t) = cur :: split_from [] t.
Proof. reflexivity. Qed.

(** Splitting a text that was joined from lines without line feeds
    gives the lines back. *)
Lemma split_from_join (ls : list text) (l cur : text) :
  forallb (forallb no_lf) (l :: ls) = true ->
  split_from cur (join nl (l :: ls)) = (cur ++ l) :: ls.
Proof.
  revert l cur. induction ls as [|l' ls IH]; intros l cur H.
  - simpl in *. rewrite andb_true_r in H.
    rewrite <- (app_nil_r l) at 1. rewrite split_from_pass by assumption.
    reflexivity.
  - change (forallb (forallb no_lf) (l :: l' :: ls))
      with (forallb no_lf l && forallb (forallb no_lf) (l' :: ls)) in H.
    apply andb_prop in H. destruct H as [H1 H2].
    change (join nl (l :: l' :: ls)) with (l ++ nl ++ join nl (l' :: ls)).
    rewrite split_from_pass, split_from_lf, IH by assumption.
    reflexivity.
Qed.

Lemma no_lf_id_line (c : clock) : forallb no_lf (id_line c) = true.
Proof.
  unfold id_line. rewrite forallb_app.
  now rewrite (forallb_impl stamp_char no_lf _ stamp_not_lf (stamp_str_int _)).
Qed.

Lemma no_lf_date_line (c : clock) : forallb no_lf (date_line c) = true.
Proof.
  unfold date_line. rewrite forallb_app.
  now rewrite (forallb_impl stamp_char no_lf _ stamp_not_lf (stamp_strftime _)).
Qed.

Lemma lines_generated (c : clock) :
  lines (generate_demo_results c) =
  opening ++ [id_line c; date_line c] ++ remainder.
Proof.
  unfold lines, generate_demo_results.
  change (split_from [] (join nl ([] :: (tl opening ++ [id_line c; date_line c] ++ remainder)))
          = ([] ++ []) :: (tl opening ++ [id_line c; date_line c] ++ remainder)).
  apply split_from_join.
  change (forallb (forallb no_lf) (opening ++ [id_line c; date_line c] ++ remainder) = true).
  rewrite !forallb_app.
  change (forallb (forallb no_lf) [id_line c; date_line c])
    with (forallb no_lf (id_line c) && (forallb no_lf (date_line c) && true)).
  rewrite no_lf_id_line, no_lf_date_line. now vm_compute.
Qed.

End Generated.

(** ** Labelled fields *)

Section Fields.

Variable U : unicode.

Lemma search_here (its : pattern) (s x : text) :
  exec its s false [] = Some x -> search its s = Some x.
Proof. intros H. destruct s; simpl; now rewrite H. Qed.

(** The labelled-field pattern, anchored: the label, the white space, and
    the longest word. *)
Lemma exec_labelled (label s : text) :
  exec (labelled U label) s false [] = field U label s.
Proof.
  unfold labelled, field, lit_i. rewrite exec_literal.
  destruct (after_literal nocase label s) as [s1|]; [|reflexivity].
  change (exec (Star true is_space :: ?r) s1 false [])
    with (star true is_space false (fun s' acc' => exec r s' false acc') s1 []).
  rewrite star_greedy_run.
  - rewrite <- lstrip_span. destruct (lstrip s1) as [|c s2]; [reflexivity|].
    simpl. destruct (is_word U c); [|reflexivity].
    now rewrite star_greedy_group.
  - intros c s' a Hc. simpl. now rewrite (space_not_word U _ Hc).
Qed.

(** The search finds the first labelled field from the left. *)
Lemma search_labelled (label s : text) :
  search (labelled U label) s = first_field U label s.
Proof.
  induction s as [|c s IH]; simpl; rewrite exec_labelled.
  - now destruct (field U label []).
  - destruct (field U label (c :: s)); [reflexivity | exact IH].
Qed.

End Fields.

(** ** Report query engine: preconditions, dispatch and the profit rule *)

Section QueryEngine.

Variable U : unicode.

(** The sequential [*=] updates of the source compute the product of the
    two multipliers, for all sixteen combinations of categories. *)
Lemma estimate_profit (health pest : text) :
  int (estimate health pest) = profit health pest.
Proof.
  unfold estimate, profit, health_multiplier, pest_multiplier.
  destruct (eqb health (T "good")); [|destruct (eqb health (T "moderate"));
    [|destruct (eqb health (T "poor"))]];
  (destruct (eqb pest (T "low")); [|destruct (eqb pest (T "medium"));
    [|destruct (eqb pest (T "high"))]]);
  vm_compute; reflexivity.
Qed.

Lemma profit_total (health pest : text) : exists n, profit health pest = Some n.
Proof.
  unfold profit, health_multiplier, pest_multiplier.
  destruct (eqb health (T "good")); [|destruct (eqb health (T "moderate"));
    [|destruct (eqb health (T "poor"))]];
  (destruct (eqb pest (T "low")); [|destruct (eqb pest (T "medium"));
    [|destruct (eqb pest (T "high"))]]);
  vm_compute; eexists; reflexivity.
Qed.

Lemma profit_path (question report : text) :
  report <> [] -> contains (T "profit") (lower U question) = true ->
  get_ai_response U question report = profit_answer U report.
Proof.
  intros Hr Hq. unfold get_ai_response, profit_answer.
  rewrite (nonempty _ Hr), Hq, estimate_profit. reflexivity.
Qed.

Lemma dispatch_table (question report : text) :
  report <> [] ->
  get_ai_response U question report = first_match (rules U) (lower U question) report.
Proof.
  intros Hr. destruct (contains (T "profit") (lower U question)) eqn:Hp.
  - rewrite profit_path by assumption. simpl. now rewrite Hp.
  - unfold get_ai_response. rewrite (nonempty _ Hr), Hp. simpl. rewrite Hp.
    destruct (contains (T "crop health") (lower U question)); [reflexivity|].
    destruct (contains (T "soil") (lower U question)
              || contains (T "moisture") (lower U question));
      [reflexivity|].
    destruct (contains (T "pest") (lower U question)); [reflexivity|].
    destruct (contains (T "recommendations") (lower U question)); reflexivity.
Qed.

End QueryEngine.

(** C9. With an empty report context the reply is one of two fixed
    messages: the "run the analysis first" message when the lower-cased
    question contains "profit", the generic "no analysis yet" message
    otherwise.  The two messages are the literals of the source and they
    differ; the lower case of a question of ASCII characters is the
    question with its capital letters replaced, so that "Will I make a
    PROFIT?" gets the first message and "What about pests?" the second;
    nothing of a report or of the profit rule enters the reply. *)
Theorem empty_context_replies (U : unicode) (question : text) :
  get_ai_response U question [] =
    Some (if contains (T "profit") (lower U question) then no_context_profit else no_context)
  /\ no_context_profit =
       T "I can only calculate potential profit after an analysis has been run. Please run the analysis first."
  /\ no_context =
       T "I don't have any analysis results to work with yet. Please click 'Run Analysis' first."
  /\ no_context_profit <> no_context
  /\ (forallb is_ascii question = true -> lower U question = ascii_lower question)
  /\ get_ai_response U (T "Will I make a PROFIT?") [] =
       Some (T "I can only calculate potential profit after an analysis has been run. Please run the analysis first.")
  /\ get_ai_response U (T "What about pests?") [] =
       Some (T "I don't have any analysis results to work with yet. Please click 'Run Analysis' first.").
Proof.
  split.
  { unfold get_ai_response. simpl. now destruct (contains (T "profit") (lower U question)). }
  split; [reflexivity|]. split; [reflexivity|]. split; [discriminate|].
  split; [apply lower_ascii|].
  split; vm_compute; reflexivity.
Qed.

(** C9, on sample questions: capital letters, also accented ones, and a
    question without the keyword. *)
Lemma empty_context_replies_witness :
  get_ai_response latin (T "PROFIT") [] =
    Some (T "I can only calculate potential profit after an analysis has been run. Please run the analysis first.")
  /\ lower latin (T "PROFIT " ++ [201; 76; 69; 86; 201; 63]%N)
     = T "profit " ++ [233; 108; 101; 118; 233; 63]%N
  /\ get_ai_response latin (T "PROFIT " ++ [201; 76; 69; 86; 201; 63]%N) [] =
       Some (T "I can only calculate potential profit after an analysis has been run. Please run the analysis first.")
  /\ get_ai_response latin (T "How is the soil?") [] =
       Some (T "I don't have any analysis results to work with yet. Please click 'Run Analysis' first.").
Proof.
  destruct (empty_context_replies latin (T "PROFIT")) as (H1 & _).
  destruct (empty_context_replies latin (T "PROFIT " ++ [201; 76; 69; 86; 201; 63]%N))
    as (H2 & _).
  destruct (empty_context_replies latin (T "How is the soil?")) as (H3 & _).
  split; [exact H1 | split; [reflexivity | split; [exact H2 | exact H3]]].
Defined.

(** C7. On a non-empty report the engine answers as the first matching
    rule of the ordered list profit, crop health, soil or moisture, pest,
    recommendations, tested on the lower-cased question; a question with
    both "profit" and "pest" gets the profit answer, and a question that
    matches no rule gets the capability message. *)
Theorem dispatch_first_match (U : unicode) (question report : text) :
  report <> [] ->
  get_ai_response U question report = first_match (rules U) (lower U question) report
  /\ (contains (T "profit") (lower U question) = true ->
      contains (T "pest") (lower U question) = true ->
      get_ai_response U question report = profit_answer U report)
  /\ (forallb (fun r => negb (fst r (lower U question))) (rules U) = true ->
      get_ai_response U question report = Some capabilities).
Proof.
  intros Hr. split; [now apply dispatch_table|]. split.
  - intros Hp _. now apply profit_path.
  - intros Hnone. rewrite dispatch_table by assumption.
    revert Hnone. generalize (rules U). induction l as [|[m a] l IH]; simpl.
    + reflexivity.
    + intros H. apply andb_prop in H. destruct H as [H1 H2].
      apply negb_true_iff in H1. rewrite H1. now apply IH.
Qed.

Lemma dispatch_first_match_witness :
  get_ai_response latin (T "Profit lost to pests?") (T "x")
  = first_match (rules latin) (lower latin (T "Profit lost to pests?")) (T "x")
  /\ get_ai_response latin (T "Profit lost to pests?") (T "x") = profit_answer latin (T "x")
  /\ profit_answer latin (T "x") =
       Some (T "Based on the analysis, the estimated potential profit is around $1000 per unit area. This is an estimate based on crop health and pest risk.")
  /\ get_ai_response latin (T "Hello") (T "x") =
       Some (T "I can answer questions about crop health, soil conditions, pest risk, and potential profit. What would you like to know?").
Proof.
  assert (Hx : T "x" <> []) by discriminate.
  destruct (dispatch_first_match latin (T "Profit lost to pests?") (T "x") Hx) as (H1 & H2 & _).
  destruct (dispatch_first_match latin (T "Hello") (T "x") Hx) as (_ & _ & H3).
  split; [exact H1 | split; [|split]].
  - apply H2; reflexivity.
  - reflexivity.
  - apply H3; reflexivity.
Defined.

(** C3, as stated, fails: a report may hold the lines "Overall Crop
    Health Status: Good" and "Overall Pest Risk Level: Low" and get
    another estimate than 1320.  When a line with the status Poor comes
    before the line with Good, the first match decides and the estimate
    is 660; when the report holds the text "Overall Crop Health Status:
    Good" as the beginning of "Overall Crop Health Status: Goodness", the
    status is not recognised and the estimate is 1100. *)
Lemma profit_rule_counterexample :
  lines poor_first_report =
    [ T "Overall Crop Health Status: Poor"; T "Overall Crop Health Status: Good";
      T "Overall Pest Risk Level: Low"; T "" ]
  /\ contains (T "Overall Crop Health Status: Good") poor_first_report = true
  /\ contains (T "Overall Pest Risk Level: Low") poor_first_report = true
  /\ get_ai_response latin (T "profit") poor_first_report =
       Some (T "Based on the analysis, the estimated potential profit is around $660 per unit area. This is an estimate based on crop health and pest risk.")
  /\ contains (T "Overall Crop Health Status: Good") goodness_report = true
  /\ contains (T "Overall Pest Risk Level: Low") goodness_report = true
  /\ get_ai_response latin (T "profit") goodness_report =
       Some (T "Based on the analysis, the estimated potential profit is around $1100 per unit area. This is an estimate based on crop health and pest risk.").
Proof. repeat split. Qed.

(** C3, amended. On a non-empty report a profit question is answered
    with the literal sentence of the source around int(1000 * healthMult
    * pestMult).  The extracted status is the lower-cased value of the
    first field, from the left, that carries the label (in any letter
    case, then any white space, then the longest run of word
    characters), and "unknown" when there is none.  The multipliers are
    1.2, 0.9, 0.6 for good, moderate, poor and 1.1, 0.8, 0.5 for low,
    medium, high, and 1.0 for every other status; the sixteen estimates
    are 1320, 960, 600, 1200; 990, 720, 450, 900; 660, 480, 300, 600;
    1100, 800, 500, 1000.  A number is always produced.  A report whose
    first health field lower-cases to good and whose first pest field
    lower-cases to low gets the estimate 1320. *)
Theorem profit_rule (U : unicode) (question report : text) :
  report <> [] ->
  contains (T "profit") (lower U question) = true ->
  get_ai_response U question report =
    option_map profit_reply (profit (health_category U report) (pest_category U report))
  /\ (exists n, get_ai_response U question report = Some (profit_reply n))
  /\ (forall n, profit_reply n =
        T "Based on the analysis, the estimated potential profit is around $" ++ str_int n
        ++ T " per unit area. This is an estimate based on crop health and pest risk.")
  /\ health_category U report = status U (first_field U health_label report)
  /\ pest_category U report = status U (first_field U pest_label report)
  /\ (first_field U health_label report = None -> health_category U report = T "unknown")
  /\ (first_field U pest_label report = None -> pest_category U report = T "unknown")
  /\ map health_multiplier [T "good"; T "moderate"; T "poor"; T "unknown"]
     = [1.2; 0.9; 0.6; 1.0]%float
  /\ map pest_multiplier [T "low"; T "medium"; T "high"; T "unknown"]
     = [1.1; 0.8; 0.5; 1.0]%float
  /\ (forall health pest,
        health <> T "good" -> health <> T "moderate" -> health <> T "poor" ->
        pest <> T "low" -> pest <> T "medium" -> pest <> T "high" ->
        health_multiplier health = 1.0%float /\ pest_multiplier pest = 1.0%float)
  /\ map (fun health => map (profit health) [T "low"; T "medium"; T "high"; T "unknown"])
       [T "good"; T "moderate"; T "poor"; T "unknown"]
     = [ [Some 1320; Some 960; Some 600; Some 1200];
         [Some 990; Some 720; Some 450; Some 900];
         [Some 660; Some 480; Some 300; Some 600];
         [Some 1100; Some 800; Some 500; Some 1000] ]%Z
  /\ (forall health pest,
        first_field U health_label report = Some health -> lower U health = T "good" ->
        first_field U pest_label report = Some pest -> lower U pest = T "low" ->
        get_ai_response U question report =
          Some (T "Based on the analysis, the estimated potential profit is around $1320 per unit area. This is an estimate based on crop health and pest risk.")).
Proof.
  intros Hr Hq. rewrite (profit_path U _ _ Hr Hq). unfold profit_answer.
  unfold health_category, pest_category, health_re, pest_re. rewrite !search_labelled.
  split; [reflexivity|]. split.
  { destruct (profit_total (status U (first_field U health_label report))
                           (status U (first_field U pest_label report))) as [n Hn].
    exists n. now rewrite Hn. }
  split; [reflexivity|]. split; [reflexivity|]. split; [reflexivity|].
  split; [now intros ->|]. split; [now intros ->|].
  split; [reflexivity|]. split; [reflexivity|]. split.
  { intros health pest H1 H2 H3 H4 H5 H6.
    unfold health_multiplier, pest_multiplier.
    apply eqb_neq in H1, H2, H3, H4, H5, H6.
    now rewrite H1, H2, H3, H4, H5, H6. }
  split; [vm_compute; reflexivity|].
  intros health pest Hh Hgood Hp Hlow. rewrite Hh, Hp. simpl status.
  rewrite Hgood, Hlow. vm_compute. reflexivity.
Qed.

(** C3, on sample reports: the two lines alone; and a health field
    written in lower case with a long s in its label and a no-break space
    before a value that ends in an accented letter, which is part of the
    word, so that the status is not recognised. *)
Lemma profit_rule_witness :
  get_ai_response latin (T "What profit can I expect?") good_low_report
  = Some (T "Based on the analysis, the estimated potential profit is around $1320 per unit area. This is an estimate based on crop health and pest risk.")
  /\ health_category latin accented_report = T "good" ++ [233%N]
  /\ get_ai_response latin (T "What profit can I expect?") accented_report
     = Some (T "Based on the analysis, the estimated potential profit is around $1100 per unit area. This is an estimate based on crop health and pest risk.").
Proof.
  assert (Hr : good_low_report <> []) by discriminate.
  assert (Ha : accented_report <> []) by discriminate.
  destruct (profit_rule latin (T "What profit can I expect?") _ Hr eq_refl)
    as (_ & _ & _ & _ & _ & _ & _ & _ & _ & _ & _ & Hfirst).
  destruct (profit_rule latin (T "What profit can I expect?") _ Ha eq_refl)
    as (Hreply & _).
  split; [|split].
  - apply (Hfirst (T "Good") (T "Low")); reflexivity.
  - reflexivity.
  - rewrite Hreply. reflexivity.
Defined.

(** ** The generated report against its schema *)

(** C1. Whatever the clock reads, the generated report holds neither an
    "Overall Crop Health Status:" nor an "Overall Pest Risk Level:" field
    (it holds "Overall Health:" and "Overall Risk:" lines instead): both
    case-insensitive label searches of the profit rule come back empty, so
    the profit answer on a generated report is always the base value
    1000. *)
Theorem generated_report_lacks_profit_fields (U : unicode) (c : clock) :
  search (health_re U) (generate_demo_results c) = None
  /\ search (pest_re U) (generate_demo_results c) = None
  /\ get_ai_response U (T "profit") (generate_demo_results c) = Some (profit_reply 1000)
  /\ profit_reply 1000 =
       T "Based on the analysis, the estimated potential profit is around $1000 per unit area. This is an estimate based on crop health and pest risk.".
Proof.
  split; [apply health_not_generated|]. split; [apply pest_not_generated|].
  split; [|reflexivity].
  unfold get_ai_response.
  change (empty (generate_demo_results c)) with false.
  change (contains (T "profit") (lower U (T "profit"))) with true.
  cbv iota. rewrite health_not_generated, pest_not_generated. reflexivity.
Qed.

(** C2. Whatever the clock reads, the lines of the generated report are
    the fixed opening, the two lines of the report id and the date, and
    the fixed remainder; each of the five titles is a line exactly once
    and they come in the schema's order; the four titles after the first
    are followed by an underline of their own length, but EXECUTIVE
    SUMMARY (17 characters) is followed by 16 "=" characters, so the
    report is not well sectioned. *)
Theorem executive_summary_underline_short (c : clock) :
  let ls := lines (generate_demo_results c) in
  ls = opening ++ [id_line c; date_line c] ++ remainder
  /\ following (T "EXECUTIVE SUMMARY") ls = Some (rule 16)
  /\ rule 16 = T "================"
  /\ length (T "EXECUTIVE SUMMARY") = 17
  /\ forallb (fun t => (occurrences t ls =? 1)%nat) titles = true
  /\ ascending (map (fun t => position t ls) titles) = true
  /\ forallb (fun t => underlined t ls) (tl titles) = true
  /\ underlined (T "EXECUTIVE SUMMARY") ls = false
  /\ well_sectioned (generate_demo_results c) = false.
Proof.
  unfold well_sectioned. cbv zeta. rewrite lines_generated.
  split; [reflexivity|].
  unfold id_line, date_line. repeat split; vm_compute; reflexivity.
Qed.
(** ** Palette mapper *)

Section Colormap.

Local Open Scope float_scope.

Lemma float_ltb_leb (x y : float) : (x <? y) = true -> (x <=? y) = true.
Proof.
  rewrite FloatAxioms.ltb_spec, FloatAxioms.leb_spec. unfold SFltb, SFleb.
  destruct (SFcompare _ _) as [[]|]; auto; discriminate.
Qed.

Lemma SFcompare_antisym (a b : spec_float) :
  SFcompare b a = option_map CompOpp (SFcompare a b).
Proof.
  destruct a as [sa|sa| |sa ma ea], b as [sb|sb| |sb mb eb]; simpl;
    try reflexivity; try (destruct sa; reflexivity); try (destruct sb; reflexivity);
    try (destruct sa, sb; reflexivity).
  destruct sa, sb; simpl; try reflexivity;
    rewrite (Z.compare_antisym ea eb); destruct (ea ?= eb)%Z; simpl; try reflexivity;
    rewrite (Pos.compare_cont_antisym ma mb Eq); simpl;
    now destruct (Pos.compare_cont Eq ma mb).
Qed.

Lemma SFcompare_defined (a b : spec_float) :
  SFcompare a a <> None -> SFcompare b b <> None -> SFcompare a b <> None.
Proof.
  destruct a as [sa|sa| |sa ma ea], b as [sb|sb| |sb mb eb]; simpl;
    intros Ha Hb; try discriminate; try contradiction.
Qed.

Lemma SFcompare_right (a b : spec_float) :
  SFcompare a b <> None -> SFcompare b b <> None.
Proof.
  destruct a as [sa|sa| |sa ma ea], b as [sb|sb| |sb mb eb]; simpl;
    intros Ha; try discriminate; try contradiction.
Qed.

(** For numbers (not nan), [k <= v] is what is left when [v < k] fails. *)
Lemma guard_complete (k v : float) :
  (0 <=? v) = true -> (k <=? k) = true -> (v <? k) = false -> (k <=? v) = true.
Proof.
  rewrite !FloatAxioms.leb_spec, FloatAxioms.ltb_spec. unfold SFltb, SFleb.
  intros Hv Hk Hlt.
  assert (Dv : SFcompare (Prim2SF v) (Prim2SF v) <> None).
  { apply (SFcompare_right (Prim2SF 0)). intros E. now rewrite E in Hv. }
  assert (Dk : SFcompare (Prim2SF k) (Prim2SF k) <> None).
  { intros E. now rewrite E in Hk. }
  pose proof (SFcompare_defined _ _ Dv Dk) as D.
  rewrite (SFcompare_antisym (Prim2SF v) (Prim2SF k)).
  destruct (SFcompare (Prim2SF v) (Prim2SF k)) as [[]|]; simpl;
    try reflexivity; try discriminate; contradiction.
Qed.

Lemma clamp01_unit (x : float) : in_unit (clamp01 x).
Proof.
  unfold clamp01, py_min, py_max, in_unit.
  destruct (x <? 1) eqn:E1.
  - destruct (0 <? x) eqn:E0.
    + split; now apply float_ltb_leb.
    + now vm_compute.
  - now vm_compute.
Qed.

Lemma jet_rgb_unit (v : float) :
  let '(r, g, b) := jet_rgb v in in_unit r /\ in_unit g /\ in_unit b.
Proof.
  unfold jet_rgb.
  destruct (v <? 0.25); [|destruct (v <? 0.5); [|destruct (v <? 0.75)]];
    repeat split; apply clamp01_unit.
Qed.

Lemma jet_rgb_segments (v : float) : in_unit v -> mapIntensity v = Some (jet_rgb v).
Proof.
  intros [H0 H1]. unfold mapIntensity, jet_rgb.
  destruct (v <? 0.25) eqn:E1; [reflexivity|].
  rewrite (guard_complete 0.25 v H0 eq_refl E1). simpl andb.
  destruct (v <? 0.5) eqn:E2; [reflexivity|].
  rewrite (guard_complete 0.5 v H0 eq_refl E2). simpl andb.
  destruct (v <? 0.75) eqn:E3; [reflexivity|].
  now rewrite (guard_complete 0.75 v H0 eq_refl E3).
Qed.

End Colormap.

(** C6. For every v in [0,1] the palette mapper returns the value of
    the four-segment colormap (segments chosen by the guards v < 0.25,
    0.25 <= v < 0.5, 0.5 <= v < 0.75, v >= 0.75) with each channel clamped;
    all channels lie in [0,1]; the value at 0 is (0,0,1) and at 1 is
    (1,0,0); and at 0.25, 0.5 and 0.75 the formulas of the two adjacent
    segments agree. *)
Theorem jet_colormap (v : float) :
  in_unit v ->
  mapIntensity v = Some (jet_rgb v)
  /\ (let '(r, g, b) := jet_rgb v in in_unit r /\ in_unit g /\ in_unit b)
  /\ jet_rgb 0 = (0, 0, 1)%float
  /\ jet_rgb 1 = (1, 0, 0)%float
  /\ segment1 0.25 = segment2 0.25
  /\ segment2 0.5 = segment3 0.5
  /\ segment3 0.75 = segment4 0.75.
Proof.
  intros Hv. split; [now apply jet_rgb_segments|]. split; [apply jet_rgb_unit|].
  repeat split; vm_compute; reflexivity.
Qed.

Lemma jet_colormap_witness :
  mapIntensity 0.5 = Some (jet_rgb 0.5)
  /\ jet_rgb 0.5 = (0, 1, 0)%float.
Proof.
  split.
  - apply (jet_colormap 0.5). split; reflexivity.
  - vm_compute. reflexivity.
Defined.


(** ** Execution orchestrator *)

Section Orchestrator.

Variable U : unicode.
Variable w : world.

Lemma forced_path : demo_forced w = true -> run_matlab U w = demo_reply w [].
Proof.
  unfold demo_forced, run_matlab, demo_reply, png_files. intros ->.
  destruct (generated w) as [report|e]; [|reflexivity].
  simpl. now destruct (listdir w).
Qed.

Lemma unavailable_path :
  demo_forced w = false -> resolvable w = false -> strict w = false ->
  run_matlab U w = demo_reply w not_found_banner.
Proof.
  unfold demo_forced, resolvable, strict, engine, run_matlab, demo_reply, png_files.
  intros -> -> ->. simpl negb. cbv iota.
  destruct (generated w) as [report|e]; [|reflexivity].
  simpl. now destruct (listdir w).
Qed.

(** Once the engine is invoked, the reply is decided by its outcome. *)
Lemma invoked_path :
  demo_forced w = false -> resolvable w = true \/ strict w = true ->
  run_matlab U w =
  match invocation w with
  | Raised e => Crashed e
  | Exited code out err =>
      if (code =? 0)%Z then real_reply w out
      else if matlab_signature U code (out ++ err) && negb (strict w) then
        demo_reply w (failed_banner ++ (out ++ err) ++ nl ++ nl)
      else Failed (T "MATLAB script execution failed.") (out ++ err)
  end.
Proof.
  unfold demo_forced, resolvable, strict, engine, invocation, matlab_signature, run_matlab.
  intros -> H.
  assert (E : negb (which w (getenv_or w (T "MATLAB_CMD") (T "matlab")))
              && negb (eqb (getenv_or w (T "STRICT_MATLAB") (T "0")) (T "1")) = false).
  { destruct H as [-> | ->]; [reflexivity | apply andb_false_r]. }
  rewrite E. destruct (subprocess_run w _) as [code out err|e]; [|reflexivity].
  destruct (code =? 0)%Z; simpl negb; cbv iota.
  - unfold real_reply, png_files. now destruct (listdir w).
  - match goal with
    | |- _ = (if ?b then demo_reply _ _ else _) => destruct b; [|reflexivity]
    end.
    unfold demo_reply, png_files.
    destruct (generated w) as [report|e]; [|reflexivity].
    simpl. rewrite <- !app_assoc. now destruct (listdir w).
Qed.

(** The generator and the listing complete or raise, and the demo reply
    follows. *)
Lemma completes_or_raises : (exists files, completes w files) \/ (exists e, raises w e).
Proof.
  unfold completes, raises.
  destruct (run_as_script w); [right; eexists; left; split; reflexivity|].
  destruct (write_maps w) as [e|]; [right; exists e; auto|].
  destruct (listdir w) as [files|e]; [left; exists files; auto | right; exists e; auto].
Qed.

Lemma demo_reply_completes (prefix : text) (files : list text) :
  completes w files ->
  demo_reply w prefix =
  Result (prefix ++ generate_demo_results (utc w)) (map_urls files)
         (prefix ++ generate_demo_results (utc w)) (T "demo").
Proof.
  intros (H1 & H2 & H3). unfold demo_reply, generated. now rewrite H1, H2, H3.
Qed.

Lemma demo_reply_raises (prefix e : text) : raises w e -> demo_reply w prefix = Crashed e.
Proof.
  unfold demo_reply, generated.
  intros [(H1 & ->) | [(H1 & H2) | (H1 & H2 & H3)]]; rewrite H1, ?H2, ?H3; reflexivity.
Qed.

Lemma demo_reply_demo (prefix : text) :
  is_demo (demo_reply w prefix) = true <-> exists files, completes w files.
Proof.
  split.
  - intros H. destruct completes_or_raises as [Hc | [e He]]; [exact Hc|].
    rewrite (demo_reply_raises _ _ He) in H. discriminate.
  - intros [files Hc]. now rewrite (demo_reply_completes _ _ Hc).
Qed.


End Orchestrator.




(** C5, as stated, fails: the configured engine is [octave], it exits
    with status 1 and its output holds "not found" together with the
    configured name, strict mode is off, and yet the reply is the error
    envelope, not a demo fallback. *)
Lemma configured_name_counterexample :
  demo_forced octave_world = false
  /\ resolvable octave_world = true
  /\ strict octave_world = false
  /\ engine octave_world = T "octave"
  /\ invocation octave_world = Exited 1 [] (T "octave: script main not found")
  /\ not_found_signature octave_world 1 ([] ++ T "octave: script main not found") = true
  /\ completes octave_world []
  /\ run_matlab latin octave_world =
       Failed (T "MATLAB script execution failed.") (T "octave: script main not found")
  /\ is_demo (run_matlab latin octave_world) = false.
Proof. repeat split. Qed.

(** C5, amended.  When the invoked engine exits with a non-zero status
    and strict mode is off and either the lower-cased captured output
    holds both "not found" and the fixed name "matlab" or the exit code
    is 127, the orchestrator falls back: the reply is the demo-mode
    result whose text is the banner, the captured output and the
    generated report when the generator and the directory listing
    complete, and the handler's error, without the captured output, when
    one of them raises.  In every other case of a non-zero exit the reply
    is the error envelope that carries the captured output.  So the reply
    is a demo-mode result exactly when strict mode is off, the signature
    holds and the generator and the listing complete. *)
Theorem nonzero_exit_policy (U : unicode) (w : world) (code : Z) (out err : text) :
  demo_forced w = false ->
  resolvable w = true \/ strict w = true ->
  invocation w = Exited code out err ->
  code <> 0%Z ->
  let captured := out ++ err in
  let fallback := failed_banner ++ captured ++ nl ++ nl ++ generate_demo_results (utc w) in
  (negb (strict w) && matlab_signature U code captured = true ->
   (forall files, completes w files ->
      run_matlab U w = Result fallback (map_urls files) fallback (T "demo"))
   /\ (forall e, raises w e -> run_matlab U w = Crashed e))
  /\ (negb (strict w) && matlab_signature U code captured = false ->
      run_matlab U w = Failed (T "MATLAB script execution failed.") captured)
  /\ (is_demo (run_matlab U w) = true <->
      negb (strict w) && matlab_signature U code captured = true
      /\ exists files, completes w files)
  /\ matlab_signature U code captured =
       (contains (T "not found") (lower U captured) && contains (T "matlab") (lower U captured)
        || (code =? 127)%Z).
Proof.
  intros Hd Hi Hx Hc. cbv zeta. rewrite (invoked_path U w Hd Hi), Hx.
  apply Z.eqb_neq in Hc. rewrite Hc, (andb_comm (matlab_signature _ _ _)).
  destruct (negb (strict w) && matlab_signature U code (out ++ err)).
  - split; [|split; [|split]].
    + intros _. split.
      * intros files Hf. rewrite (demo_reply_completes w _ files Hf).
        now rewrite <- !app_assoc.
      * intros e He. now apply demo_reply_raises.
    + discriminate.
    + rewrite demo_reply_demo. split; [now split | now intros [_ H]].
    + reflexivity.
  - split; [|split; [|split]].
    + discriminate.
    + reflexivity.
    + split; [discriminate | now intros [H _]].
    + reflexivity.
Qed.

Lemma nonzero_exit_policy_witness :
  run_matlab latin broken_world =
    Result (T "MATLAB command failed or not found; running in DEMO mode instead. Error details:"
            ++ nl ++ T "MATLAB: launcher NOT FOUND" ++ nl ++ nl ++ generate_demo_results noon)
           [T "/results/ndvi_map.png"]
           (T "MATLAB command failed or not found; running in DEMO mode instead. Error details:"
            ++ nl ++ T "MATLAB: launcher NOT FOUND" ++ nl ++ nl ++ generate_demo_results noon)
           (T "demo")
  /\ run_matlab latin (as_script broken_world) =
       Crashed (T "name 'generate_demo_results' is not defined")
  /\ run_matlab latin octave_world =
       Failed (T "MATLAB script execution failed.") (T "octave: script main not found").
Proof.
  assert (Hc : 1%Z <> 0%Z) by discriminate.
  pose proof (nonzero_exit_policy latin broken_world 1 [] (T "MATLAB: launcher NOT FOUND")
                eq_refl (or_introl eq_refl) eq_refl Hc) as H1.
  pose proof (nonzero_exit_policy latin (as_script broken_world) 1 []
                (T "MATLAB: launcher NOT FOUND")
                eq_refl (or_introl eq_refl) eq_refl Hc) as H2.
  pose proof (nonzero_exit_policy latin octave_world 1 [] (T "octave: script main not found")
                eq_refl (or_introl eq_refl) eq_refl Hc) as H3.
  cbv zeta in H1, H2, H3.
  destruct H1 as (H1 & _). destruct (H1 eq_refl) as (Hok & _).
  destruct H2 as (H2 & _). destruct (H2 eq_refl) as (_ & Hraise).
  destruct H3 as (_ & Hfail & _).
  split; [|split].
  - apply (Hok [T "ndvi_map.png"]). repeat split.
  - apply Hraise. left. split; reflexivity.
  - apply Hfail. reflexivity.
Defined.




(** ** Section extraction *)

Section PestSection.

Variable U : unicode.

Lemma pest_path (question report : text) :
  report <> [] -> asks_pest_only U question = true ->
  get_ai_response U question report = pest_answer report.
Proof.
  intros Hr Hq. unfold asks_pest_only in Hq. cbv zeta in Hq.
  repeat (apply andb_prop in Hq; destruct Hq as [Hq ?]).
  repeat match goal with H : negb _ = true |- _ => apply negb_true_iff in H end.
  unfold get_ai_response, pest_answer.
  rewrite (nonempty _ Hr).
  repeat match goal with H : contains _ _ = _ |- _ => rewrite H end.
  reflexivity.
Qed.

(** The pest pattern finds the text enclosed by the leftmost marker that
    has the closing title after it. *)
Lemma search_pest_section (report : text) :
  search pest_section_re report =
  enclosed (T "PEST RISK ANALYSIS") (T "==================") (T "RECOMMENDATIONS") report.
Proof. apply (search_section _ _ 61%N). reflexivity. Qed.

End PestSection.

(** C8, as stated, fails: the text between the two markers mentions
    RECOMMENDATIONS, and the reply stops at that word instead of running
    to the RECOMMENDATIONS marker. *)
Lemma pest_section_counterexample :
  asks_pest_only latin (T "What about pests?") = true
  /\ lines cross_referenced_report =
       [ T "PEST RISK ANALYSIS"; T "=================="; T "See RECOMMENDATIONS below."; T "";
         T "RECOMMENDATIONS"; T "==============="; T "Scout weekly."; T "" ]
  /\ strip cross_reference = T "See RECOMMENDATIONS below."
  /\ get_ai_response latin (T "What about pests?") cross_referenced_report = Some (T "See")
  /\ (get_ai_response latin (T "What about pests?") cross_referenced_report
      <> Some (strip cross_reference)).
Proof. repeat split. discriminate. Qed.

(** C8, amended. For a question of the pest path and a non-empty report:
    when the text after the first well-formed PEST RISK ANALYSIS marker
    (the title, any white space, eighteen "=") holds the word
    RECOMMENDATIONS, the reply is the trimmed text between that marker
    and the first such occurrence, whether or not the occurrence is a
    section marker; when the report holds no well-formed marker, the reply
    is the fixed message that the Pest Risk section was not found. *)
Theorem pest_section_reply (U : unicode) (question report : text) :
  report <> [] ->
  asks_pest_only U question = true ->
  (forall rest n,
     after_marker (T "PEST RISK ANALYSIS") (T "==================") report = Some rest ->
     find (T "RECOMMENDATIONS") rest = Some n ->
     get_ai_response U question report = Some (strip (take n rest)))
  /\ (after_marker (T "PEST RISK ANALYSIS") (T "==================") report = None ->
      get_ai_response U question report =
      Some (T "I couldn't find the Pest Risk section in the analysis.")).
Proof.
  intros Hr Hq. rewrite (pest_path U _ _ Hr Hq). unfold pest_answer.
  rewrite search_pest_section. split.
  - intros rest n Hm Hf. now rewrite (enclosed_first _ _ _ _ _ _ Hm Hf).
  - intros Hm. now rewrite (enclosed_none _ _ _ _ Hm).
Qed.

(** C8, on sample reports: the cross-referenced report; a report whose
    white space is the no-break space, between the title and its
    underline and around the body; and a report without sections. *)
Lemma pest_section_reply_witness :
  get_ai_response latin (T "What about pests?") cross_referenced_report = Some (T "See")
  /\ get_ai_response latin (T "What about pests?") nbsp_report = Some (T "Aphids low.")
  /\ get_ai_response latin (T "What about pests?") (T "no sections here")
     = Some (T "I couldn't find the Pest Risk section in the analysis.").
Proof.
  assert (Hq : asks_pest_only latin (T "What about pests?") = true) by reflexivity.
  assert (H1 : cross_referenced_report <> []) by discriminate.
  assert (H2 : nbsp_report <> []) by discriminate.
  assert (H3 : T "no sections here" <> []) by discriminate.
  destruct (pest_section_reply latin _ _ H1 Hq) as [Hfound _].
  destruct (pest_section_reply latin _ _ H2 Hq) as [Hnbsp _].
  destruct (pest_section_reply latin _ _ H3 Hq) as [_ Hmissing].
  split; [|split].
  - apply (Hfound (cross_reference ++ T "RECOMMENDATIONS" ++ nl ++ T "===============" ++ nl
                   ++ T "Scout weekly." ++ nl) 5); reflexivity.
  - apply (Hnbsp (nbsp :: nl ++ T "Aphids low." ++ nbsp :: nl ++ T "RECOMMENDATIONS" ++ nl
                  ++ T "===============" ++ nl ++ T "Scout weekly." ++ nl) 15); reflexivity.
  - apply Hmissing. reflexivity.
Defined.

(** ** The first marker of a section *)

Section FirstMarker.

Lemma drop_drop (a b : nat) (s : text) : drop a (drop b s) = drop (a + b) s.
Proof.
  revert s. induction b as [|b IH]; intros s.
  - now rewrite Nat.add_0_r.
  - rewrite Nat.add_succ_r. destruct s as [|c s]; simpl.
    + now destruct a.
    + apply IH.
Qed.

Lemma find_drop (next s : text) (n : nat) :
  find next s = None -> find next (drop n s) = None.
Proof.
  revert s. induction n as [|n IH]; intros s H; [now destruct s|].
  destruct s as [|c s]; [exact H|].
  simpl in *. destruct (startswith next (c :: s)); [discriminate|].
  apply IH. now destruct (find next s).
Qed.

(** Inside a run of the class [p], every character is in [p]. *)
Lemma span_char (p : char -> bool) (s : text) (j : nat) :
  (j < length (span p s))%nat ->
  exists c t, drop j s = c :: t /\ p c = true.
Proof.
  revert s. induction j as [|j IH]; intros s H.
  - destruct s as [|c s]; simpl in *; [lia|].
    destruct (p c) eqn:E; simpl in *; [|lia]. now exists c, s.
  - destruct s as [|c s]; simpl in *; [lia|].
    destruct (p c) eqn:E; simpl in *; [|lia]. apply IH. lia.
Qed.

(** What [marker] returns, as an offset into the subject. *)
Lemma marker_offset (title underline s rest : text) :
  marker title underline s = Some rest ->
  let k := length (span is_space (drop (length title) s)) in
  rest = drop (length underline + (k + length title)) s
  /\ startswith underline (drop (k + length title) s) = true.
Proof.
  unfold marker. destruct (startswith title s); [|discriminate].
  rewrite lstrip_span, drop_drop.
  destruct (startswith underline _) eqn:E; [|discriminate].
  intros [= <-]. cbv zeta. now rewrite drop_drop.
Qed.

(** A marker that starts later ends later: its underline cannot begin
    inside the white space of the earlier one. *)
Lemma later_marker (title u s rest rest' : text) (c0 : char) (o : nat) :
  is_space c0 = false ->
  marker title (c0 :: u) s = Some rest ->
  marker title (c0 :: u) (drop o s) = Some rest' ->
  exists d, rest' = drop d rest.
Proof.
  intros Hc H H'.
  apply marker_offset in H. apply marker_offset in H'. cbv zeta in *.
  destruct H as [-> Hu]. destruct H' as [-> Hu'].
  rewrite !drop_drop in *.
  set (k := length (span is_space (drop (length title) s))) in *.
  set (k' := length (span is_space (drop (length title + o) s))) in *.
  destruct (Nat.le_gt_cases k (k' + o)) as [Hle|Hgt].
  - exists (k' + o - k)%nat. rewrite drop_drop. f_equal. lia.
  - exfalso.
    destruct (span_char is_space (drop (length title) s) (k' + o))
      as (c & t & Hd & Hs); [exact Hgt|].
    rewrite drop_drop in Hd.
    match type of Hu' with context [drop ?n s] =>
      replace n with (k' + o + length title)%nat in Hu' by lia end.
    rewrite Hd in Hu'. simpl in Hu'.
    apply andb_prop in Hu'. destruct Hu' as [E _].
    apply N.eqb_eq in E. subst c. congruence.
Qed.

Lemma enclosed_drop_none (title u next s rest : text) (c0 : char) :
  is_space c0 = false ->
  marker title (c0 :: u) s = Some rest ->
  find next rest = None ->
  forall o, enclosed title (c0 :: u) next (drop o s) = None.
Proof.
  intros Hc Hm Hf o.
  remember (drop o s) as s' eqn:Es. revert o Es.
  induction s' as [|c s' IH]; intros o Es.
  - simpl. destruct (marker title (c0 :: u) []) as [r|] eqn:E; [|reflexivity].
    rewrite Es in E. destruct (later_marker _ _ _ _ _ _ _ Hc Hm E) as [d ->].
    unfold upto. now rewrite find_drop.
  - simpl. destruct (marker title (c0 :: u) (c :: s')) as [r|] eqn:E.
    + rewrite Es in E. destruct (later_marker _ _ _ _ _ _ _ Hc Hm E) as [d ->].
      unfold upto. rewrite find_drop by assumption. simpl.
      apply (IH (S o)). rewrite <- (drop_drop 1 o), <- Es. reflexivity.
    + apply (IH (S o)). rewrite <- (drop_drop 1 o), <- Es. reflexivity.
Qed.

(** The text a section pattern finds is decided by the first marker
    alone. *)
Lemma enclosed_section_text (title u next s : text) (c0 : char) :
  is_space c0 = false ->
  enclosed title (c0 :: u) next s = section_text title (c0 :: u) next s.
Proof.
  intros Hc. unfold section_text. induction s as [|c s IH].
  - simpl. now destruct (marker title (c0 :: u) []) as [r|]; [destruct (upto next r)|].
  - simpl. destruct (marker title (c0 :: u) (c :: s)) as [r|] eqn:E; [|exact IH].
    destruct (upto next r) eqn:Eu; [reflexivity|].
    apply (enclosed_drop_none _ _ _ _ _ _ Hc E) with (o := 1%nat).
    unfold upto in Eu. now destruct (find next r).
Qed.

End FirstMarker.

(** ** The section rules of the query engine *)

Section SectionPaths.

Variable U : unicode.

Ltac keyword_path Hr Hq :=
  cbv zeta in Hq;
  repeat (apply andb_prop in Hq; destruct Hq as [Hq ?]);
  repeat match goal with H : negb _ = true |- _ => apply negb_true_iff in H end;
  unfold get_ai_response;
  rewrite (nonempty _ Hr);
  repeat match goal with H : _ = false |- _ => rewrite H end;
  rewrite Hq; reflexivity.

Lemma crop_path (question report : text) :
  report <> [] -> asks_crop U question = true ->
  get_ai_response U question report = crop_answer report.
Proof. intros Hr Hq. unfold asks_crop in Hq. keyword_path Hr Hq. Qed.

Lemma soil_path (question report : text) :
  report <> [] -> asks_soil U question = true ->
  get_ai_response U question report = soil_answer report.
Proof. intros Hr Hq. unfold asks_soil in Hq. keyword_path Hr Hq. Qed.

Lemma recommendations_path (question report : text) :
  report <> [] -> asks_recommendations U question = true ->
  get_ai_response U question report = recommendations_answer report.
Proof. intros Hr Hq. unfold asks_recommendations in Hq. keyword_path Hr Hq. Qed.

Lemma span_any (s : text) : span any s = s.
Proof. induction s as [|c s IH]; simpl; [reflexivity|]. now rewrite any_all, IH. Qed.

(** A marker in front of the rest [r] of a pattern. *)
Lemma exec_marker (title u : text) (c0 : char) (r : pattern) (s : text) :
  is_space c0 = false ->
  exec (lit title ++ [Star true is_space] ++ lit (c0 :: u) ++ r) s false [] =
  match marker title (c0 :: u) s with
  | Some rest => exec r rest false []
  | None => None
  end.
Proof.
  intros Hc0. unfold marker, lit.
  rewrite exec_literal, after_exact.
  destruct (startswith title s); [|reflexivity].
  change (exec ([Star true is_space] ++ ?r) ?x false [])
    with (star true is_space false (fun s' acc' => exec r s' false acc') x []).
  rewrite star_greedy_run.
  - rewrite <- lstrip_span, exec_literal, after_exact.
    now destruct (startswith (c0 :: u) _).
  - intros c s' a Hc. simpl. unfold exactly at 1.
    destruct (c0 =? c)%N eqn:E; [|reflexivity].
    apply N.eqb_eq in E. subst c. congruence.
Qed.

(** The recommendations pattern, anchored: the marker, and all the text
    after it. *)
Lemma exec_recommendations (s : text) :
  exec recommendations_re s false [] = marker (T "RECOMMENDATIONS") (T "===============") s.
Proof.
  unfold recommendations_re.
  change (T "===============") with (61%N :: T "==============").
  rewrite (exec_marker _ (T "==============") 61%N _ _ eq_refl).
  destruct (marker _ _ s) as [rest|]; [|reflexivity].
  change (exec [Open; Star true any; Close] rest false [])
    with (star true any true (fun _ acc' => Some acc') rest []).
  now rewrite star_greedy_group, span_any.
Qed.

Lemma search_unfold (its : pattern) (s : text) :
  search its s =
  match exec its s false [] with
  | Some x => Some x
  | None => match s with [] => None | _ :: s' => search its s' end
  end.
Proof. now destruct s. Qed.

Lemma after_marker_unfold (title underline s : text) :
  after_marker title underline s =
  match marker title underline s with
  | Some rest => Some rest
  | None => match s with [] => None | _ :: s' => after_marker title underline s' end
  end.
Proof. now destruct s. Qed.

Lemma search_recommendations (s : text) :
  search recommendations_re s = after_marker (T "RECOMMENDATIONS") (T "===============") s.
Proof.
  induction s as [|c s IH];
    rewrite search_unfold, exec_recommendations, after_marker_unfold.
  - now destruct (marker _ _ []).
  - destruct (marker _ _ (c :: s)); [reflexivity | exact IH].
Qed.

Lemma search_bounded (title next u s : text) (c0 : char) :
  is_space c0 = false ->
  search (section title (c0 :: u) next) s = section_text title (c0 :: u) next s.
Proof.
  intros Hc. rewrite search_section by assumption. now apply enclosed_section_text.
Qed.

End SectionPaths.

(** X1. A crop-health question on a non-empty report is answered from the
    first well-formed CROP HEALTH ANALYSIS marker alone (the title, any
    white space, twenty "="): with the trimmed text up to the first SOIL
    CONDITION ANALYSIS after it, and with the fixed not-found message when
    there is no marker or no such title after the first marker, even if a
    later marker has one. *)
Theorem crop_section_reply (U : unicode) (question report : text) :
  report <> [] ->
  asks_crop U question = true ->
  get_ai_response U question report =
  Some match after_marker (T "CROP HEALTH ANALYSIS") (T "====================") report with
       | Some rest =>
           match find (T "SOIL CONDITION ANALYSIS") rest with
           | Some n => strip (take n rest)
           | None => T "I couldn't find the Crop Health section in the analysis."
           end
       | None => T "I couldn't find the Crop Health section in the analysis."
       end.
Proof.
  intros Hr Hq. rewrite (crop_path U _ _ Hr Hq). unfold crop_answer, crop_section_re.
  change (T "====================") with (61%N :: T "===================").
  rewrite (search_bounded _ _ (T "===================") _ 61%N eq_refl).
  unfold section_text, upto.
  destruct (after_marker _ _ report) as [rest|]; [|reflexivity].
  now destruct (find _ rest).
Qed.

Lemma crop_section_reply_witness :
  get_ai_response latin (T "How is the crop health?") three_sections
  = Some (T "NDVI: 0.61 (Healthy)").
Proof.
  rewrite (crop_section_reply latin (T "How is the crop health?") three_sections);
    [reflexivity | discriminate | reflexivity].
Defined.

(** X2. A soil or moisture question on a non-empty report is answered
    from the first well-formed SOIL CONDITION ANALYSIS marker alone: with
    the trimmed text up to the first PEST RISK ANALYSIS after it, and with
    the fixed not-found message otherwise. *)
Theorem soil_section_reply (U : unicode) (question report : text) :
  report <> [] ->
  asks_soil U question = true ->
  get_ai_response U question report =
  Some match after_marker (T "SOIL CONDITION ANALYSIS") (T "=======================") report with
       | Some rest =>
           match find (T "PEST RISK ANALYSIS") rest with
           | Some n => strip (take n rest)
           | None => T "I couldn't find the Soil Condition section in the analysis."
           end
       | None => T "I couldn't find the Soil Condition section in the analysis."
       end.
Proof.
  intros Hr Hq. rewrite (soil_path U _ _ Hr Hq). unfold soil_answer, soil_section_re.
  change (T "=======================") with (61%N :: T "======================").
  rewrite (search_bounded _ _ (T "======================") _ 61%N eq_refl).
  unfold section_text, upto.
  destruct (after_marker _ _ report) as [rest|]; [|reflexivity].
  now destruct (find _ rest).
Qed.

Lemma soil_section_reply_witness :
  get_ai_response latin (T "Is there enough moisture?") three_sections
  = Some (T "Moisture: 0.18").
Proof.
  rewrite (soil_section_reply latin (T "Is there enough moisture?") three_sections);
    [reflexivity | discriminate | reflexivity].
Defined.

(** X3. A pest question on a report whose first well-formed PEST RISK
    ANALYSIS marker has no RECOMMENDATIONS after it gets the not-found
    message: no later marker is tried with success, since what follows a
    later marker is part of what follows the first. *)
Theorem pest_section_first_marker (U : unicode) (question report rest : text) :
  report <> [] ->
  asks_pest_only U question = true ->
  after_marker (T "PEST RISK ANALYSIS") (T "==================") report = Some rest ->
  find (T "RECOMMENDATIONS") rest = None ->
  get_ai_response U question report =
  Some (T "I couldn't find the Pest Risk section in the analysis.").
Proof.
  intros Hr Hq Hm Hf. rewrite (pest_path U _ _ Hr Hq). unfold pest_answer, pest_section_re.
  change (T "==================") with (61%N :: T "=================").
  rewrite (search_bounded _ _ (T "=================") _ 61%N eq_refl).
  change (61%N :: T "=================") with (T "==================").
  unfold section_text, upto. now rewrite Hm, Hf.
Qed.

Lemma pest_section_first_marker_witness :
  get_ai_response latin (T "Any pests?") three_sections
  = Some (T "I couldn't find the Pest Risk section in the analysis.").
Proof.
  apply (pest_section_first_marker latin (T "Any pests?") three_sections
           (nl ++ T "Aphids: 0.42" ++ nl));
    [discriminate | reflexivity | reflexivity | reflexivity].
Defined.

(** X4. A recommendations question on a non-empty report is answered
    with all the text after the first well-formed RECOMMENDATIONS marker,
    trimmed, and with the fixed not-found message when there is no
    marker. *)
Theorem recommendations_reply (U : unicode) (question report : text) :
  report <> [] ->
  asks_recommendations U question = true ->
  get_ai_response U question report =
  Some match after_marker (T "RECOMMENDATIONS") (T "===============") report with
       | Some rest => strip rest
       | None => T "I couldn't find any recommendations in the analysis."
       end.
Proof.
  intros Hr Hq. rewrite (recommendations_path U _ _ Hr Hq). unfold recommendations_answer.
  rewrite search_recommendations. now destruct (after_marker _ _ report).
Qed.

Lemma recommendations_reply_witness :
  get_ai_response latin (T "Any recommendations?") cross_referenced_report
  = Some (T "Scout weekly.")
  /\ get_ai_response latin (T "Any recommendations?") three_sections
     = Some (T "I couldn't find any recommendations in the analysis.").
Proof.
  split.
  - rewrite (recommendations_reply latin (T "Any recommendations?") cross_referenced_report);
      [reflexivity | discriminate | reflexivity].
  - rewrite (recommendations_reply latin (T "Any recommendations?") three_sections);
      [reflexivity | discriminate | reflexivity].
Defined.

(** ** More on the profit rule *)

Section ProfitFacts.

Variable U : unicode.

Lemma profit_range (health pest : text) :
  exists n, profit health pest = Some n /\ (300 <= n <= 1320)%Z.
Proof.
  unfold profit, health_multiplier, pest_multiplier.
  destruct (eqb health (T "good")); [|destruct (eqb health (T "moderate"));
    [|destruct (eqb health (T "poor"))]];
  (destruct (eqb pest (T "low")); [|destruct (eqb pest (T "medium"));
    [|destruct (eqb pest (T "high"))]]);
  (eexists; split; [vm_compute; reflexivity | lia]).
Qed.

(** The lower case of an ASCII capital is an ASCII small letter, and no
    class of the patterns tells the two apart. *)
Lemma lower_char_idem (c : char) : lower_char (lower_char c) = lower_char c.
Proof.
  unfold lower_char, is_upper, between.
  destruct ((65 <=? c)%N && (c <=? 90)%N) eqn:E; [|now rewrite E].
  destruct ((65 <=? c + 32)%N && (c + 32 <=? 90)%N) eqn:F; [|reflexivity].
  props; lia.
Qed.

Lemma is_space_lower (c : char) : is_space (lower_char c) = is_space c.
Proof.
  unfold lower_char. destruct (is_upper c) eqn:E; [|reflexivity].
  unfold is_upper, between in E.
  destruct (is_space (c + 32)%N) eqn:F, (is_space c) eqn:G; try reflexivity; exfalso;
    unfold is_space, between in F, G; simpl existsb in F, G; props; subst; lia.
Qed.

Lemma is_word_lower (c : char) : is_word U (lower_char c) = is_word U c.
Proof.
  unfold lower_char. destruct (is_upper c) eqn:E; [|reflexivity].
  unfold is_word, isalnum. rewrite E.
  assert (H : (c + 32 <? 128)%N = true /\ (c <? 128)%N = true /\ is_lower (c + 32)%N = true).
  { unfold is_upper, is_lower, between in *. props.
    repeat split; try apply N.ltb_lt; try lia.
    apply andb_true_intro. split; apply N.leb_le; lia. }
  destruct H as (-> & -> & ->). simpl. now rewrite orb_true_r.
Qed.

Lemma nocase_lower (a c : char) : nocase a (lower_char c) = nocase a c.
Proof.
  unfold lower_char at 1. destruct (is_upper c) eqn:E; [|reflexivity].
  assert (H : is_ascii c = true /\ is_ascii (c + 32)%N = true).
  { unfold is_upper, between, is_ascii in *. props. split; apply N.ltb_lt; lia. }
  destruct H as [H1 H2]. rewrite !nocase_ascii by assumption.
  f_equal. change (lower_char (c + 32)%N = lower_char c).
  replace (c + 32)%N with (lower_char c) by (unfold lower_char; now rewrite E).
  apply lower_char_idem.
Qed.

Lemma ascii_lower_idem (s : text) : ascii_lower (ascii_lower s) = ascii_lower s.
Proof.
  induction s as [|c s IH]; simpl; [reflexivity|]. now rewrite lower_char_idem, IH.
Qed.

Lemma ascii_lower_ascii (s : text) :
  forallb is_ascii s = true -> forallb is_ascii (ascii_lower s) = true.
Proof.
  induction s as [|c s IH]; simpl; [reflexivity|].
  intros H. apply andb_prop in H. destruct H as [H1 H2]. rewrite (IH H2), andb_true_r.
  unfold lower_char, is_upper, between, is_ascii in *.
  destruct ((65 <=? c)%N && (c <=? 90)%N) eqn:E; [|exact H1].
  props. apply N.ltb_lt. lia.
Qed.

Lemma after_literal_lower (label s : text) :
  after_literal nocase label (ascii_lower s)
  = option_map ascii_lower (after_literal nocase label s).
Proof.
  revert s. induction label as [|a label IH]; intros s; simpl; [reflexivity|].
  destruct s as [|c s]; simpl; [reflexivity|].
  rewrite nocase_lower. destruct (nocase a c); [apply IH | reflexivity].
Qed.

Lemma lstrip_lower (s : text) : lstrip (ascii_lower s) = ascii_lower (lstrip s).
Proof.
  induction s as [|c s IH]; simpl; [reflexivity|].
  rewrite is_space_lower. now destruct (is_space c).
Qed.

Lemma span_word_lower (s : text) :
  span (is_word U) (ascii_lower s) = ascii_lower (span (is_word U) s).
Proof.
  induction s as [|c s IH]; simpl; [reflexivity|].
  rewrite is_word_lower. destruct (is_word U c); simpl; [now rewrite IH | reflexivity].
Qed.

Lemma field_lower (label s : text) :
  field U label (ascii_lower s) = option_map ascii_lower (field U label s).
Proof.
  unfold field. rewrite after_literal_lower.
  destruct (after_literal nocase label s) as [s1|]; simpl; [|reflexivity].
  rewrite lstrip_lower, span_word_lower.
  now destruct (span (is_word U) (lstrip s1)).
Qed.

Lemma first_field_unfold (label s : text) :
  first_field U label s =
  match field U label s with
  | Some word => Some word
  | None => match s with [] => None | _ :: s' => first_field U label s' end
  end.
Proof. now destruct s. Qed.

Lemma first_field_lower (label s : text) :
  first_field U label (ascii_lower s) = option_map ascii_lower (first_field U label s).
Proof.
  induction s as [|c s IH].
  - rewrite (first_field_unfold _ (ascii_lower [])), (first_field_unfold _ []), field_lower.
    now destruct (field U label []).
  - rewrite (first_field_unfold _ (ascii_lower (c :: s))), (first_field_unfold _ (c :: s)),
      field_lower.
    destruct (field U label (c :: s)); simpl; [reflexivity | exact IH].
Qed.

(** The value of a field is made of characters of the text. *)
Lemma forallb_drop (p : char -> bool) (n : nat) (s : text) :
  forallb p s = true -> forallb p (drop n s) = true.
Proof.
  revert s. induction n as [|n IH]; intros s H; [now destruct s|].
  destruct s as [|c s]; [exact H|]. simpl in *.
  apply andb_prop in H. now apply IH.
Qed.

Lemma forallb_span (p q : char -> bool) (s : text) :
  forallb p s = true -> forallb p (span q s) = true.
Proof.
  induction s as [|c s IH]; simpl; [reflexivity|].
  intros H. apply andb_prop in H. destruct H as [H1 H2].
  destruct (q c); simpl; [now rewrite H1, IH | reflexivity].
Qed.

Lemma forallb_after_literal (p : char -> bool) same (label s s1 : text) :
  after_literal same label s = Some s1 -> forallb p s = true -> forallb p s1 = true.
Proof.
  revert s. induction label as [|a label IH]; intros s; simpl.
  - now intros [= <-].
  - destruct s as [|c s]; [discriminate|]. destruct (same a c); [|discriminate].
    intros H F. simpl in F. apply andb_prop in F. now apply (IH s).
Qed.

Lemma forallb_field (p : char -> bool) (label s word : text) :
  field U label s = Some word -> forallb p s = true -> forallb p word = true.
Proof.
  unfold field. destruct (after_literal nocase label s) as [s1|] eqn:E; [|discriminate].
  intros H F. pose proof (forallb_after_literal p _ _ _ _ E F) as F1.
  rewrite lstrip_span in H.
  pose proof (forallb_span p (is_word U) _
                (forallb_drop p (length (span is_space s1)) _ F1)) as F2.
  destruct (span (is_word U) _); [discriminate|]. now injection H as <-.
Qed.

Lemma forallb_first_field (p : char -> bool) (label s word : text) :
  first_field U label s = Some word -> forallb p s = true -> forallb p word = true.
Proof.
  induction s as [|c s IH]; simpl first_field.
  - destruct (field U label []) eqn:E; [|discriminate].
    intros [= <-]. now apply (forallb_field p label []).
  - destruct (field U label (c :: s)) eqn:E.
    + intros [= <-]. now apply (forallb_field p label (c :: s)).
    + intros H F. simpl in F. apply andb_prop in F. now apply IH.
Qed.

Lemma status_lower (label report : text) :
  forallb is_ascii report = true ->
  status U (first_field U label (lower U report)) = status U (first_field U label report).
Proof.
  intros F. rewrite (lower_ascii U _ F), first_field_lower.
  destruct (first_field U label report) as [word|] eqn:E; simpl; [|reflexivity].
  pose proof (forallb_first_field is_ascii _ _ _ E F) as Fw.
  rewrite (lower_ascii U _ (ascii_lower_ascii _ Fw)), (lower_ascii U _ Fw).
  apply ascii_lower_idem.
Qed.

End ProfitFacts.

(** X5. The profit estimate is bounded: on a non-empty report every
    profit question is answered with an amount between 300 and 1320. *)
Theorem profit_estimate_bounded (U : unicode) (question report : text) :
  report <> [] ->
  contains (T "profit") (lower U question) = true ->
  exists n, get_ai_response U question report = Some (profit_reply n)
            /\ (300 <= n <= 1320)%Z.
Proof.
  intros Hr Hq. rewrite (profit_path U _ _ Hr Hq). unfold profit_answer.
  destruct (profit_range (health_category U report) (pest_category U report))
    as (n & Hn & Hb).
  exists n. now rewrite Hn.
Qed.

Lemma profit_estimate_bounded_witness :
  get_ai_response latin (T "Profit?") poor_and_high = Some (profit_reply 300)
  /\ exists n, get_ai_response latin (T "Profit?") poor_and_high = Some (profit_reply n)
               /\ (300 <= n <= 1320)%Z.
Proof.
  split; [reflexivity|].
  apply (profit_estimate_bounded latin (T "Profit?") poor_and_high);
    [discriminate | reflexivity].
Defined.

(** X6. The profit answer does not depend on the letter case of a
    report of ASCII characters: lower-casing the whole report leaves the
    reply unchanged. *)
Theorem profit_ignores_report_case (U : unicode) (question report : text) :
  forallb is_ascii report = true ->
  report <> [] ->
  contains (T "profit") (lower U question) = true ->
  get_ai_response U question (lower U report) = get_ai_response U question report.
Proof.
  intros Fa Hr Hq.
  assert (Hl : lower U report <> []).
  { rewrite (lower_ascii U _ Fa). destruct report; [contradiction | discriminate]. }
  rewrite !profit_path by assumption.
  unfold profit_answer, health_category, pest_category, health_re, pest_re.
  now rewrite !search_labelled, !status_lower.
Qed.

Lemma profit_ignores_report_case_witness :
  lower latin poor_and_high =
    T "overall crop health status: poor" ++ nl ++ T "overall pest risk level: high" ++ nl
  /\ get_ai_response latin (T "Profit?") (lower latin poor_and_high)
     = get_ai_response latin (T "Profit?") poor_and_high.
Proof.
  split; [reflexivity|].
  apply (profit_ignores_report_case latin (T "Profit?") poor_and_high);
    [reflexivity | discriminate | reflexivity].
Defined.

(** ** The chat on a demo result *)

Section DemoText.

Variable U : unicode.

Lemma numeric_bound (c : char) : numeric_char c = true -> (c <= 58)%N.
Proof.
  unfold numeric_char, is_digit, between. simpl existsb. intros H. props; subst; lia.
Qed.

Lemma digit_numeric (c : char) : is_digit c = true -> numeric_char c = true.
Proof. unfold numeric_char. now intros ->. Qed.

Lemma numeric_uint (d : Decimal.uint) :
  forallb numeric_char (T (NilZero.string_of_uint d)) = true.
Proof.
  apply (forallb_impl is_digit); [exact digit_numeric|].
  destruct d; try reflexivity; apply (digits_uint (_ d)).
Qed.

Lemma numeric_str_int (z : Z) : forallb numeric_char (str_int z) = true.
Proof.
  unfold str_int, NilZero.string_of_int. destruct (Z.to_int z) as [d|d].
  - apply numeric_uint.
  - change (T (String "-" (NilZero.string_of_uint d)))
      with (45%N :: T (NilZero.string_of_uint d)).
    simpl forallb. now rewrite numeric_uint.
Qed.

Lemma numeric_zeros (k : nat) : forallb numeric_char (zeros k) = true.
Proof. induction k; simpl; auto. Qed.

Lemma numeric_pad (k : nat) (n : N) : forallb numeric_char (pad k n) = true.
Proof. unfold pad, str_nat. now rewrite forallb_app, numeric_zeros, numeric_uint. Qed.

Lemma numeric_date (c : clock) : forallb numeric_char (date_digits c) = true.
Proof.
  unfold date_digits. repeat (rewrite forallb_app, ?numeric_pad; simpl). apply numeric_pad.
Qed.

Lemma strftime_zone (c : clock) : strftime c = date_digits c ++ T " UTC".
Proof. unfold strftime, date_digits. now rewrite <- !app_assoc. Qed.

(** A search whose first class misses digits and the separators of the
    date, and that cannot start in the fixed text in front, sees only
    the text from the zone suffix on. *)
Lemma search_demo_text (p : char -> bool) (r : pattern) (prefix : text) (c : clock) :
  (forall x, numeric_char x = true -> negb (p x) = true) ->
  blank (Chr p :: r) prefix = true ->
  blank (Chr p :: r) before_id = true ->
  blank (Chr p :: r) before_date = true ->
  search (Chr p :: r) (prefix ++ generate_demo_results c) =
  search (Chr p :: r) (T " UTC" ++ after_date).
Proof.
  intros Hp H0 H1 H2. rewrite report_shape, strftime_zone, <- !app_assoc.
  rewrite (blank_search _ prefix) by assumption.
  rewrite (blank_search _ before_id) by assumption.
  rewrite (blank_search _ (str_int _)).
  2:{ apply blank_all, (forallb_impl numeric_char); [exact Hp | apply numeric_str_int]. }
  rewrite (blank_search _ before_date) by assumption.
  rewrite (blank_search _ (date_digits _)).
  2:{ apply blank_all, (forallb_impl numeric_char); [exact Hp | apply numeric_date]. }
  reflexivity.
Qed.

(** No numeric character is a letter. *)
Lemma numeric_not_letter (a c : char) :
  (65 <= a)%N -> numeric_char c = true -> negb (exactly a c) = true.
Proof.
  intros Ha H. apply numeric_bound in H. unfold exactly.
  apply negb_true_iff, N.eqb_neq. lia.
Qed.

Lemma numeric_not_o (c : char) : numeric_char c = true -> negb (nocase 79%N c) = true.
Proof.
  intros H. apply numeric_bound in H.
  assert (Ha : is_ascii c = true) by (apply N.ltb_lt; lia).
  rewrite (nocase_ascii _ _ Ha). apply negb_true_iff, N.eqb_neq.
  unfold lower_char, is_upper, between.
  destruct ((65 <=? c)%N && (c <=? 90)%N) eqn:E; [props; lia|].
  change (lower_char 79%N) with 111%N. unfold lower_char, is_upper, between. simpl. lia.
Qed.

Lemma section_head (a : char) (title underline next : text) :
  section (a :: title) underline next =
  Chr (exactly a) ::
    (lit title ++ [Star true is_space] ++ lit underline ++
     [Open; Star false any; Close] ++ lit next).
Proof. reflexivity. Qed.

(** What the five searches of the chat find in the generated report,
    bare or behind the banner of the missing engine. *)
Lemma searches_demo_text (prefix : text) (c : clock) :
  prefix = [] \/ prefix = not_found_banner ->
  extracted (search crop_section_re (prefix ++ generate_demo_results c)) no_crop_section
    = join nl crop_lines
  /\ extracted (search soil_section_re (prefix ++ generate_demo_results c)) no_soil_section
    = join nl soil_lines
  /\ extracted (search pest_section_re (prefix ++ generate_demo_results c)) no_pest_section
    = join nl pest_lines
  /\ extracted (search recommendations_re (prefix ++ generate_demo_results c))
       no_recommendations
    = join nl recommendation_lines
  /\ search (health_re U) (prefix ++ generate_demo_results c) = None
  /\ search (pest_re U) (prefix ++ generate_demo_results c) = None.
Proof.
  intros H.
  unfold health_re, pest_re.
  change crop_section_re
    with (section (67%N :: T "ROP HEALTH ANALYSIS") (T "====================")
            (T "SOIL CONDITION ANALYSIS")).
  change soil_section_re
    with (section (83%N :: T "OIL CONDITION ANALYSIS") (T "=======================")
            (T "PEST RISK ANALYSIS")).
  change pest_section_re
    with (section (80%N :: T "EST RISK ANALYSIS") (T "==================")
            (T "RECOMMENDATIONS")).
  change recommendations_re
    with (Chr (exactly 82%N) ::
            (lit (T "ECOMMENDATIONS") ++ [Star true is_space] ++ lit (T "===============")
             ++ [Open; Star true any; Close])).
  change health_label with (79%N :: T "verall Crop Health Status:").
  change pest_label with (79%N :: T "verall Pest Risk Level:").
  rewrite !section_head, !labelled_head.
  assert (HC := numeric_not_letter 67%N). assert (HS := numeric_not_letter 83%N).
  assert (HP := numeric_not_letter 80%N). assert (HR := numeric_not_letter 82%N).
  repeat split.
  - rewrite search_demo_text;
      [| intros x; apply HC; lia | destruct H as [-> | ->] | |]; now vm_compute.
  - rewrite search_demo_text;
      [| intros x; apply HS; lia | destruct H as [-> | ->] | |]; now vm_compute.
  - rewrite search_demo_text;
      [| intros x; apply HP; lia | destruct H as [-> | ->] | |]; now vm_compute.
  - rewrite search_demo_text;
      [| intros x; apply HR; lia | destruct H as [-> | ->] | |]; now vm_compute.
  - rewrite search_demo_text;
      [| exact numeric_not_o | destruct H as [-> | ->] | |]; now vm_compute.
  - rewrite search_demo_text;
      [| exact numeric_not_o | destruct H as [-> | ->] | |]; now vm_compute.
Qed.

End DemoText.

(** X7. On a demo result that is forced or that replaces a missing
    engine, whatever the clock reads, the chat finds every section of the
    generated report: crop-health, soil, pest and recommendations
    questions are answered with the lines of that section, while a profit
    question gets the base amount 1000 (the report has no profit field). *)
Theorem demo_result_answers (U : unicode) (w : world) (files : list text) :
  plain_demo w = true ->
  completes w files ->
  exists report,
    run_matlab U w = Result report (map_urls files) report (T "demo")
    /\ (forall q, asks_crop U q = true ->
        get_ai_response U q report = Some (join nl crop_lines))
    /\ (forall q, asks_soil U q = true ->
        get_ai_response U q report = Some (join nl soil_lines))
    /\ (forall q, asks_pest_only U q = true ->
        get_ai_response U q report = Some (join nl pest_lines))
    /\ (forall q, asks_recommendations U q = true ->
        get_ai_response U q report = Some (join nl recommendation_lines))
    /\ (forall q, contains (T "profit") (lower U q) = true ->
        get_ai_response U q report = Some (profit_reply 1000)).
Proof.
  intros Hw Hc.
  assert (H : exists prefix,
             (prefix = [] \/ prefix = not_found_banner)
             /\ run_matlab U w =
                Result (prefix ++ generate_demo_results (utc w)) (map_urls files)
                       (prefix ++ generate_demo_results (utc w)) (T "demo")).
  { unfold plain_demo in Hw. destruct (demo_forced w) eqn:Hd.
    - exists []. split; [now left|].
      rewrite forced_path by assumption. now apply demo_reply_completes.
    - simpl in Hw. apply andb_prop in Hw. destruct Hw as [Hr Hs].
      apply negb_true_iff in Hr, Hs.
      exists not_found_banner. split; [now right|].
      rewrite unavailable_path by assumption. now apply demo_reply_completes. }
  destruct H as (prefix & Hp & Hrun).
  exists (prefix ++ generate_demo_results (utc w)). split; [exact Hrun|].
  assert (Hne : prefix ++ generate_demo_results (utc w) <> [])
    by (destruct Hp as [-> | ->]; discriminate).
  destruct (searches_demo_text U prefix (utc w) Hp) as (Hcr & Hs & Hpe & Hre & Hh & Hpr).
  repeat split; intros q Hq.
  - rewrite (crop_path U _ _ Hne Hq). unfold crop_answer. now rewrite Hcr.
  - rewrite (soil_path U _ _ Hne Hq). unfold soil_answer. now rewrite Hs.
  - rewrite (pest_path U _ _ Hne Hq). unfold pest_answer. now rewrite Hpe.
  - rewrite (recommendations_path U _ _ Hne Hq). unfold recommendations_answer.
    now rewrite Hre.
  - rewrite (profit_path U _ _ Hne Hq). unfold profit_answer, health_category, pest_category.
    now rewrite Hh, Hpr.
Qed.

Lemma demo_result_answers_witness :
  exists report,
    run_matlab latin bare_world = Result report [] report (T "demo")
    /\ get_ai_response latin (T "Any pests?") report =
       Some (join nl
               [ T "Overall Risk: Medium (Score: 0.46)"; T "Confidence: 0.77"; T "";
                 T "Specific Pest Risks:"; T "  Aphids: 0.42 (Medium Risk)";
                 T "  Whiteflies: 0.28 (Low Risk)"; T "  Thrips: 0.31 (Medium Risk)";
                 T "  Spider Mites: 0.22 (Low Risk)"; T "  Caterpillars: 0.18 (Low Risk)" ])
    /\ get_ai_response latin (T "What profit?") report =
       Some (T "Based on the analysis, the estimated potential profit is around $1000 per unit area. This is an estimate based on crop health and pest risk.").
Proof.
  assert (Hc : completes bare_world []) by (repeat split).
  destruct (demo_result_answers latin bare_world [] eq_refl Hc)
    as (report & Hrun & _ & _ & Hpest & _ & Hprofit).
  exists report. split; [exact Hrun | split].
  - apply Hpest. reflexivity.
  - apply Hprofit. reflexivity.
Defined.

(** ** The envelope of a reply *)

Section Envelope.

Variable U : unicode.
Variable w : world.




Lemma raises_unique (e e' : text) : raises w e -> raises w e' -> e = e'.
Proof.
  unfold raises.
  intros [(H1 & ->) | [(H1 & H2) | (H1 & H2 & H3)]]
         [(H1' & ->) | [(H1' & H2') | (H1' & H2' & H3')]]; congruence.
Qed.

Lemma completes_not_raises (files : list text) (e : text) :
  completes w files -> raises w e -> False.
Proof.
  unfold completes, raises.
  intros (H1 & H2 & H3) [(H1' & _) | [(H1' & H2') | (H1' & H2' & H3')]]; congruence.
Qed.

Lemma demo_reply_crashed (prefix e : text) :
  demo_reply w prefix = Crashed e <-> raises w e.
Proof.
  split; [|apply demo_reply_raises].
  intros H. destruct (completes_or_raises w) as [[files Hc] | [e' He]].
  - rewrite (demo_reply_completes w _ _ Hc) in H. discriminate.
  - rewrite (demo_reply_raises w _ _ He) in H. now injection H as <-.
Qed.

Lemma demo_reply_result (prefix output : text) (images : list text)
  (full_context mode : text) :
  demo_reply w prefix = Result output images full_context mode ->
  full_context = output /\ mode = T "demo"
  /\ exists files, listdir w = Returns files /\ images = map_urls files.
Proof.
  intros H. destruct (completes_or_raises w) as [[files Hc] | [e He]].
  - rewrite (demo_reply_completes w _ _ Hc) in H. injection H as <- <- <- <-.
    repeat split. exists files. split; [apply Hc | reflexivity].
  - rewrite (demo_reply_raises w _ _ He) in H. discriminate.
Qed.

Lemma demo_reply_not_failed (prefix e d : text) : demo_reply w prefix <> Failed e d.
Proof.
  unfold demo_reply. destruct (generated w); [|discriminate].
  destruct (listdir w); discriminate.
Qed.

Lemma real_reply_not_failed (out e d : text) : real_reply w out <> Failed e d.
Proof. unfold real_reply. destruct (listdir w); discriminate. Qed.

(** The three ways to the reply. *)
Lemma reply_cases :
  (demo_forced w = true /\ run_matlab U w = demo_reply w [])
  \/ (demo_forced w = false /\ resolvable w = false /\ strict w = false
      /\ run_matlab U w = demo_reply w not_found_banner)
  \/ (demo_forced w = false /\ (resolvable w = true \/ strict w = true)
      /\ run_matlab U w =
         match invocation w with
         | Raised e => Crashed e
         | Exited code out err =>
             if (code =? 0)%Z then real_reply w out
             else if matlab_signature U code (out ++ err) && negb (strict w) then
               demo_reply w (failed_banner ++ (out ++ err) ++ nl ++ nl)
             else Failed (T "MATLAB script execution failed.") (out ++ err)
         end).
Proof.
  destruct (demo_forced w) eqn:Hd; [left; split; [reflexivity | now apply forced_path]|].
  right.
  assert (Hi : (resolvable w = false /\ strict w = false)
               \/ (resolvable w = true \/ strict w = true)).
  { destruct (resolvable w); [auto|]. destruct (strict w); auto. }
  destruct Hi as [[Hr Hs] | Hi].
  - left. repeat split; auto. now apply unavailable_path.
  - right. split; [reflexivity|]. split; [exact Hi|]. now apply invoked_path.
Qed.

End Envelope.


(** X9. Every result envelope repeats its text as the chat context, lists
    the addresses of the maps in the results directory, which was listed
    without an error, and has the mode "demo" or "matlab". *)
Theorem result_envelope (U : unicode) (w : world) (output : text) (images : list text)
  (full_context mode : text) :
  run_matlab U w = Result output images full_context mode ->
  full_context = output
  /\ (exists files, listdir w = Returns files /\ images = map_urls files)
  /\ (mode = T "demo" \/ mode = T "matlab").
Proof.
  intros H.
  assert (D : forall prefix,
            demo_reply w prefix = Result output images full_context mode ->
            full_context = output
            /\ (exists files, listdir w = Returns files /\ images = map_urls files)
            /\ (mode = T "demo" \/ mode = T "matlab")).
  { intros prefix E. destruct (demo_reply_result w _ _ _ _ _ E) as (H1 & H2 & H3). auto. }
  destruct (reply_cases U w) as [(_ & E) | [(_ & _ & _ & E) | (_ & _ & E)]];
    rewrite E in H; try (now apply (D _ H)).
  destruct (invocation w) as [code out err|e]; [|discriminate].
  destruct (code =? 0)%Z.
  - unfold real_reply in H. destruct (listdir w) as [files|e] eqn:El; [|discriminate].
    injection H as <- <- <- <-. repeat split; [now exists files | now right].
  - destruct (_ && _); [now apply (D _ H) | discriminate].
Qed.

Lemma result_envelope_witness :
  run_matlab latin engine_world =
    Result (T "Analysis complete.") [T "/results/ndvi_map.png"; T "/results/evi_map.png"]
           (T "Analysis complete.") (T "matlab")
  /\ (exists files,
        listdir engine_world = Returns files
        /\ [T "/results/ndvi_map.png"; T "/results/evi_map.png"] = map_urls files).
Proof.
  assert (H : run_matlab latin engine_world =
              Result (T "Analysis complete.")
                     [T "/results/ndvi_map.png"; T "/results/evi_map.png"]
                     (T "Analysis complete.") (T "matlab")) by reflexivity.
  split; [exact H|].
  destruct (result_envelope latin engine_world _ _ _ _ H) as (_ & Hfiles & _).
  exact Hfiles.
Defined.

(** X10. The reply is a real-mode result exactly when demo mode is not
    forced, the engine is invoked (it is resolvable or strict mode is on),
    it exits with status 0 and the results directory can be listed; the
    text is then the standard output alone, the captured standard error
    is dropped. *)
Theorem real_mode_result (U : unicode) (w : world) (output : text) :
  (exists images, run_matlab U w = Result output images output (T "matlab")) <->
  demo_forced w = false
  /\ (resolvable w = true \/ strict w = true)
  /\ (exists err, invocation w = Exited 0 output err)
  /\ exists files, listdir w = Returns files.
Proof.
  split.
  - intros [images H].
    assert (D : forall prefix,
              demo_reply w prefix <> Result output images output (T "matlab")).
    { intros prefix E. destruct (demo_reply_result w _ _ _ _ _ E) as (_ & E' & _).
      discriminate. }
    destruct (reply_cases U w) as [(_ & E) | [(_ & _ & _ & E) | (Hd & Hi & E)]];
      rewrite E in H; try (now destruct (D _ H)).
    split; [exact Hd|]. split; [exact Hi|].
    destruct (invocation w) as [code out err|e]; [|discriminate].
    destruct (code =? 0)%Z eqn:Hc.
    + apply Z.eqb_eq in Hc. subst code. unfold real_reply in H.
      destruct (listdir w) as [files|e]; [|discriminate].
      injection H as -> _. split; [now exists err | now exists files].
    + destruct (_ && _); [now destruct (D _ H) | discriminate].
  - intros (Hd & Hi & (err & Hx) & (files & Hl)).
    exists (map_urls files). rewrite (invoked_path U w Hd Hi), Hx. simpl.
    unfold real_reply. now rewrite Hl.
Qed.

(** X11. The replies that are errors.  The envelope with details is
    returned exactly when the invoked engine exits with a non-zero status
    that is not turned into a fallback (strict mode is on, or the output
    has no not-found signature); its details are the captured output.
    The handler's error is returned exactly when the generator or the
    listing raises on one of the three demo paths, when the engine cannot
    be started, or when the listing raises after a run of the engine that
    exits with status 0. *)
Theorem error_replies (U : unicode) (w : world) (e d : text) :
  (run_matlab U w = Failed e d <->
   e = T "MATLAB script execution failed."
   /\ demo_forced w = false
   /\ (resolvable w = true \/ strict w = true)
   /\ exists code out err,
        invocation w = Exited code out err /\ code <> 0%Z /\ d = out ++ err
        /\ (strict w = true \/ matlab_signature U code (out ++ err) = false))
  /\ (run_matlab U w = Crashed e <->
      (demo_forced w = true /\ raises w e)
      \/ (demo_forced w = false /\ resolvable w = false /\ strict w = false /\ raises w e)
      \/ (demo_forced w = false /\ (resolvable w = true \/ strict w = true)
          /\ (invocation w = Raised e
              \/ (exists out err, invocation w = Exited 0 out err /\ listdir w = Raises e)
              \/ (exists code out err,
                    invocation w = Exited code out err /\ code <> 0%Z
                    /\ strict w = false /\ matlab_signature U code (out ++ err) = true
                    /\ raises w e)))).
Proof.
  split.
  - split.
    + intros H.
      destruct (reply_cases U w) as [(_ & E) | [(_ & _ & _ & E) | (Hd & Hi & E)]];
        rewrite E in H; try (now destruct (demo_reply_not_failed w _ _ _ H)).
      destruct (invocation w) as [code out err|x]; [|discriminate].
      destruct (code =? 0)%Z eqn:Hc; [now destruct (real_reply_not_failed w _ _ _ H)|].
      destruct (matlab_signature U code (out ++ err)) eqn:Hm, (strict w) eqn:Hs;
        cbn [andb negb] in H;
        try (now destruct (demo_reply_not_failed w _ _ _ H));
        injection H as <- <-;
        (split; [reflexivity | split; [exact Hd | split; [exact Hi|]]]);
        exists code, out, err; apply Z.eqb_neq in Hc; auto.
    + intros (-> & Hd & Hi & code & out & err & Hx & Hc & -> & Hn).
      rewrite (invoked_path U w Hd Hi), Hx. apply Z.eqb_neq in Hc. rewrite Hc.
      destruct Hn as [-> | ->]; [now rewrite andb_false_r | reflexivity].
  - split.
    + intros H.
      destruct (reply_cases U w) as [(Hd & E) | [(Hd & Hr & Hs & E) | (Hd & Hi & E)]];
        rewrite E in H.
      * left. split; [exact Hd | now apply (demo_reply_crashed w [])].
      * right. left. repeat split; auto. now apply (demo_reply_crashed w not_found_banner).
      * right. right. split; [exact Hd | split; [exact Hi|]].
        destruct (invocation w) as [code out err|x]; [|injection H as ->; now left].
        right. destruct (code =? 0)%Z eqn:Hc.
        -- left. apply Z.eqb_eq in Hc. subst code. exists out, err. split; [reflexivity|].
           unfold real_reply in H. destruct (listdir w); [discriminate|].
           now injection H as ->.
        -- right. exists code, out, err. apply Z.eqb_neq in Hc.
           destruct (matlab_signature U code (out ++ err)) eqn:Hm, (strict w) eqn:Hs;
             cbn [andb negb] in H; try discriminate.
           repeat split; auto. now apply (demo_reply_crashed w) in H.
    + intros [(Hd & He) | [(Hd & Hr & Hs & He) | (Hd & Hi & Hx)]].
      * rewrite forced_path by assumption. now apply demo_reply_raises.
      * rewrite unavailable_path by assumption. now apply demo_reply_raises.
      * rewrite (invoked_path U w Hd Hi).
        destruct Hx as [-> | [(out & err & -> & Hl) | (code & out & err & -> & Hc & Hs & Hm & He)]].
        -- reflexivity.
        -- simpl. unfold real_reply. now rewrite Hl.
        -- apply Z.eqb_neq in Hc. rewrite Hc, Hm, Hs. simpl. now apply demo_reply_raises.
Qed.

(** ** Rasters and the synthetic maps *)

Section Rasters.

Context {A : Type}.

Lemma length_update (l : list A) (i : nat) (v : A) :
  length (update l i v) = length l.
Proof.
  revert i. induction l as [|a l IH]; intros i; [reflexivity|].
  destruct i; simpl; [reflexivity | now rewrite IH].
Qed.

Lemma nth_error_update (l : list A) (i j : nat) (v : A) :
  (i < length l)%nat ->
  nth_error (update l i v) j = if (j =? i)%nat then Some v else nth_error l j.
Proof.
  revert i j. induction l as [|a l IH]; intros i j Hi; simpl in Hi; [lia|].
  destruct i as [|i], j as [|j]; simpl; try reflexivity.
  apply IH. lia.
Qed.

Lemma inside_index (img : image A) (x y : nat) :
  sized img -> inside img x y = true ->
  (y * width img + x < length (data img))%nat.
Proof.
  unfold sized, inside. intros Hs H. apply andb_prop in H. destruct H as [Hx Hy].
  apply Nat.ltb_lt in Hx, Hy. rewrite Hs. nia.
Qed.

Lemma index_eq (w x y x' y' : nat) :
  (x < w)%nat -> (x' < w)%nat ->
  (y' * w + x' =? y * w + x)%nat = (x' =? x)%nat && (y' =? y)%nat.
Proof.
  intros Hx Hx'.
  destruct (Nat.eqb_spec x' x) as [Ex|Ex], (Nat.eqb_spec y' y) as [Ey|Ey]; simpl.
  - subst. apply Nat.eqb_refl.
  - apply Nat.eqb_neq. nia.
  - apply Nat.eqb_neq. nia.
  - apply Nat.eqb_neq. nia.
Qed.

(** Writing one pixel changes that pixel and nothing else. *)
Lemma getpixel_putpixel (img img' : image A) (x y x' y' : nat) (v : A) :
  sized img ->
  putpixel img x y v = Some img' ->
  width img' = width img /\ height img' = height img /\ sized img'
  /\ getpixel img' x' y' =
     if inside img x' y' && (x' =? x)%nat && (y' =? y)%nat then Some v
     else getpixel img x' y'.
Proof.
  intros Hs. unfold putpixel. destruct (inside img x y) eqn:Hin; [|discriminate].
  intros [= <-]. simpl. repeat split.
  - unfold sized. simpl. now rewrite length_update.
  - unfold getpixel, inside. simpl.
    change ((x' <? width img)%nat && (y' <? height img)%nat) with (inside img x' y').
    destruct (inside img x' y') eqn:Hin'; [|reflexivity]. simpl.
    rewrite nth_error_update by now apply inside_index.
    unfold inside in Hin, Hin'.
    apply andb_prop in Hin, Hin'. destruct Hin as [Hx _], Hin' as [Hx' _].
    apply Nat.ltb_lt in Hx, Hx'. now rewrite index_eq.
Qed.

Lemma for_each_ext {S : Type} (xs : list nat) (f g : nat -> S -> option S) (s : S) :
  (forall x s', f x s' = g x s') -> for_each xs f s = for_each xs g s.
Proof.
  intros H. revert s. induction xs as [|x xs IH]; intros s; simpl; [reflexivity|].
  rewrite H. destruct (g x s); [apply IH | reflexivity].
Qed.

Variable colour : nat -> nat -> option A.

(** One row of the loop: the pixels of the row at the columns [xs] get
    their colour, the rest of the image is kept. *)
Lemma paint_row (y : nat) (xs : list nat) (img : image A) :
  sized img -> (y < height img)%nat ->
  (forall x, In x xs -> (x < width img)%nat /\ colour x y <> None) ->
  exists img',
    for_each xs (paint colour y) img = Some img'
    /\ width img' = width img /\ height img' = height img /\ sized img'
    /\ forall x' y',
         getpixel img' x' y' =
         if inside img x' y' && (y' =? y)%nat && existsb (Nat.eqb x') xs
         then colour x' y else getpixel img x' y'.
Proof.
  intros Hs Hy. revert img Hs Hy. induction xs as [|x xs IH]; intros img Hs Hy Hxs.
  - exists img. simpl. repeat split; auto. intros x' y'. now rewrite andb_false_r.
  - destruct (Hxs x (or_introl eq_refl)) as [Hx Hc].
    destruct (colour x y) as [v|] eqn:Ev; [|contradiction].
    assert (Hin : inside img x y = true).
    { unfold inside. apply andb_true_intro. split; now apply Nat.ltb_lt. }
    destruct (putpixel img x y v) as [img1|] eqn:Ep.
    2:{ unfold putpixel in Ep. now rewrite Hin in Ep. }
    destruct (getpixel_putpixel img img1 x y 0 0 v Hs Ep) as (Hw1 & Hh1 & Hs1 & _).
    destruct (IH img1 Hs1) as (img' & Hrun & Hw & Hh & Hs' & Hget).
    { now rewrite Hh1. }
    { intros x0 H0. rewrite Hw1. apply Hxs. now right. }
    exists img'. simpl. unfold paint at 1. rewrite Ev, Ep.
    repeat split; try congruence.
    intros x' y'. rewrite Hget.
    destruct (getpixel_putpixel img img1 x y x' y' v Hs Ep) as (_ & _ & _ & ->).
    assert (Hi1 : inside img1 x' y' = inside img x' y').
    { unfold inside. now rewrite Hw1, Hh1. }
    rewrite Hi1. simpl existsb.
    destruct (inside img x' y'); simpl; [|reflexivity].
    destruct (y' =? y)%nat eqn:Ey; simpl; [|now rewrite andb_false_r].
    rewrite andb_true_r.
    destruct (x' =? x)%nat eqn:Ex; simpl.
    + apply Nat.eqb_eq in Ex. subst x'. rewrite Ev. now destruct (existsb _ xs).
    + reflexivity.
Qed.

(** All the rows: every pixel of the columns [xs] and rows [ys] gets its
    colour. *)
Lemma paint_rows (xs ys : list nat) (img : image A) :
  sized img ->
  (forall y, In y ys -> (y < height img)%nat) ->
  (forall x y, In x xs -> In y ys -> (x < width img)%nat /\ colour x y <> None) ->
  exists img',
    for_each ys (fun y s => for_each xs (paint colour y) s) img = Some img'
    /\ width img' = width img /\ height img' = height img /\ sized img'
    /\ forall x' y',
         getpixel img' x' y' =
         if inside img x' y' && existsb (Nat.eqb y') ys && existsb (Nat.eqb x') xs
         then colour x' y' else getpixel img x' y'.
Proof.
  intros Hs. revert img Hs. induction ys as [|y ys IH]; intros img Hs Hys Hc.
  - exists img. simpl. repeat split; auto. intros x' y'. now rewrite andb_false_r.
  - destruct (paint_row y xs img Hs) as (img1 & Hrow & Hw1 & Hh1 & Hs1 & Hget1).
    { apply Hys. now left. }
    { intros x Hx. apply Hc; [assumption | now left]. }
    destruct (IH img1 Hs1) as (img' & Hrun & Hw & Hh & Hs' & Hget).
    { intros y0 H0. rewrite Hh1. apply Hys. now right. }
    { intros x y0 Hx H0. rewrite Hw1. apply Hc; [assumption | now right]. }
    exists img'. simpl. rewrite Hrow.
    repeat split; try congruence.
    intros x' y'. rewrite Hget, Hget1.
    assert (Hi1 : inside img1 x' y' = inside img x' y').
    { unfold inside. now rewrite Hw1, Hh1. }
    rewrite Hi1. destruct (inside img x' y'); simpl; [|reflexivity].
    destruct (existsb (Nat.eqb x') xs); rewrite ?andb_false_r, ?andb_true_r;
      [|reflexivity].
    destruct (y' =? y)%nat eqn:Ey; simpl.
    + apply Nat.eqb_eq in Ey. subst y'. now destruct (existsb _ ys).
    + reflexivity.
Qed.

Lemma existsb_range (n x : nat) : existsb (Nat.eqb x) (range n) = (x <? n)%nat.
Proof.
  unfold range. destruct (x <? n)%nat eqn:E.
  - apply existsb_exists. exists x. split; [|apply Nat.eqb_refl].
    apply in_seq. apply Nat.ltb_lt in E. lia.
  - apply Nat.ltb_ge in E. destruct (existsb _ _) eqn:Ex; [|reflexivity].
    apply existsb_exists in Ex. destruct Ex as (z & Hz & Hxz).
    apply in_seq in Hz. apply Nat.eqb_eq in Hxz. lia.
Qed.

Lemma sized_new (w h : nat) (fill : A) : sized (new w h fill).
Proof. unfold sized, new. simpl. apply repeat_length. Qed.

(** The whole double loop on a fresh image. *)
Lemma paint_image (w h : nat) (fill : A) :
  (forall x y, (x < w)%nat -> (y < h)%nat -> colour x y <> None) ->
  exists img,
    for_each (range h) (fun y s => for_each (range w) (paint colour y) s) (new w h fill)
    = Some img
    /\ width img = w /\ height img = h /\ sized img
    /\ forall x y, (x < w)%nat -> (y < h)%nat -> getpixel img x y = colour x y.
Proof.
  intros Hc.
  destruct (paint_rows (range w) (range h) (new w h fill) (sized_new w h fill))
    as (img & Hrun & Hw & Hh & Hs & Hget).
  - intros y Hy. apply in_seq in Hy. simpl. lia.
  - intros x y Hx Hy. apply in_seq in Hx, Hy. simpl. split; [lia | apply Hc; lia].
  - exists img. repeat split; auto. intros x y Hx Hy.
    rewrite Hget, !existsb_range. unfold inside. simpl.
    apply Nat.ltb_lt in Hx, Hy. now rewrite Hx, Hy.
Qed.

End Rasters.

(** ** The palette over the gray levels *)

Section PaletteTable.

Lemma level_in (p : Z) : (0 <= p <= 255)%Z -> In p levels.
Proof.
  intros H. unfold levels. rewrite <- (Z2Nat.id p) by lia.
  apply in_map, in_seq. lia.
Qed.

Lemma colour_table : forallb colour_ok levels = true.
Proof. vm_compute. reflexivity. Qed.

Lemma order_table :
  forallb (fun p => forallb (fun q => if (p <? q)%Z then order_ok p q else true) levels)
          levels = true.
Proof. vm_compute. reflexivity. Qed.

Lemma gray_table : forallb (fun x => forallb (gray_ok x) levels) levels = true.
Proof. vm_compute. reflexivity. Qed.

Lemma colour_of_level (p : Z) :
  (0 <= p <= 255)%Z -> exists c, pixel_colour p = Some c /\ saturated c = true.
Proof.
  intros H. pose proof colour_table as T. rewrite forallb_forall in T.
  specialize (T p (level_in p H)). unfold colour_ok in T.
  destruct (pixel_colour p) as [c|]; [now exists c | discriminate].
Qed.

Lemma saturated_spec (r g b : Z) :
  saturated (r, g, b) = true ->
  (0 <= r <= 255 /\ 0 <= g <= 255 /\ 0 <= b <= 255)%Z
  /\ Z.max r (Z.max g b) = 255%Z /\ Z.min r (Z.min g b) = 0%Z.
Proof.
  unfold saturated, is_byte, red, green, blue. cbn [fst snd].
  rewrite !andb_true_iff, !Z.leb_le, !Z.eqb_eq. tauto.
Qed.

End PaletteTable.

(** X12. The colour of a gray level 0..255 in [apply_jet_palette] is a
    triple of bytes with one channel at 255 and one at 0; level 0 is pure
    blue and level 255 pure red. *)
Theorem palette_colours (p : Z) :
  (0 <= p <= 255)%Z ->
  exists r g b,
    pixel_colour p = Some (r, g, b)
    /\ (0 <= r <= 255 /\ 0 <= g <= 255 /\ 0 <= b <= 255)%Z
    /\ Z.max r (Z.max g b) = 255%Z
    /\ Z.min r (Z.min g b) = 0%Z
    /\ pixel_colour 0 = Some (0, 0, 255)%Z
    /\ pixel_colour 255 = Some (255, 0, 0)%Z.
Proof.
  intros H. destruct (colour_of_level p H) as ([[r g] b] & Hc & Hs).
  exists r, g, b. apply saturated_spec in Hs.
  split; [exact Hc|]. split; [apply Hs|]. split; [apply Hs|]. split; [apply Hs|].
  split; vm_compute; reflexivity.
Qed.

Lemma palette_colours_witness :
  pixel_colour 128 = Some (1, 255, 0)%Z
  /\ exists r g b,
       pixel_colour 128 = Some (r, g, b)
       /\ (0 <= r <= 255 /\ 0 <= g <= 255 /\ 0 <= b <= 255)%Z
       /\ Z.max r (Z.max g b) = 255%Z
       /\ Z.min r (Z.min g b) = 0%Z
       /\ pixel_colour 0 = Some (0, 0, 255)%Z
       /\ pixel_colour 255 = Some (255, 0, 0)%Z.
Proof. split; [vm_compute; reflexivity|]. apply (palette_colours 128). lia. Defined.

(** X13. The palette separates the gray levels and is ordered: a brighter
    level gets a different colour, with no less red and no more blue. *)
Theorem palette_ordered (p q : Z) :
  (0 <= p)%Z -> (p < q)%Z -> (q <= 255)%Z ->
  exists c d,
    pixel_colour p = Some c /\ pixel_colour q = Some d
    /\ c <> d /\ (red c <= red d)%Z /\ (blue d <= blue c)%Z.
Proof.
  intros H0 Hpq H1. pose proof order_table as T. rewrite forallb_forall in T.
  specialize (T p (level_in p ltac:(lia))). rewrite forallb_forall in T.
  specialize (T q (level_in q ltac:(lia))).
  apply Z.ltb_lt in Hpq. rewrite Hpq in T. unfold order_ok in T.
  destruct (pixel_colour p) as [c|]; [|discriminate].
  destruct (pixel_colour q) as [d|]; [|discriminate].
  exists c, d. rewrite !andb_true_iff, !Z.leb_le, negb_true_iff in T.
  destruct T as [[T Hr] Hb]. repeat split; auto.
  intros ->. unfold rgb_eqb in T. now rewrite !Z.eqb_refl in T.
Qed.

Lemma palette_ordered_witness :
  pixel_colour 63 = Some (0, 252, 255)%Z
  /\ pixel_colour 64 = Some (0, 255, 254)%Z
  /\ exists c d,
       pixel_colour 63 = Some c /\ pixel_colour 64 = Some d
       /\ c <> d /\ (red c <= red d)%Z /\ (blue d <= blue c)%Z.
Proof.
  split; [vm_compute; reflexivity|]. split; [vm_compute; reflexivity|].
  apply (palette_ordered 63 64); lia.
Defined.

(** X14. [apply_jet_palette] on a gray image whose data fills its size and
    whose pixels are bytes: it returns an image of the same size in which
    every pixel is the palette colour of the gray pixel at the same
    place. *)
Theorem apply_jet_palette_pointwise (gray : image Z) :
  length (data gray) = (width gray * height gray)%nat ->
  Forall (fun p => 0 <= p <= 255)%Z (data gray) ->
  exists out,
    apply_jet_palette gray = Some out
    /\ width out = width gray /\ height out = height gray
    /\ length (data out) = (width gray * height gray)%nat
    /\ forall x y, (x < width gray)%nat -> (y < height gray)%nat ->
       exists p c, getpixel gray x y = Some p /\ pixel_colour p = Some c
                   /\ getpixel out x y = Some c.
Proof.
  intros Hs Hb.
  set (colour := fun x y => match getpixel gray x y with
                            | Some p => pixel_colour p
                            | None => None
                            end).
  assert (Hg : forall x y, (x < width gray)%nat -> (y < height gray)%nat ->
                 exists p c, getpixel gray x y = Some p /\ pixel_colour p = Some c).
  { intros x y Hx Hy. unfold getpixel, inside.
    apply Nat.ltb_lt in Hx, Hy. rewrite Hx, Hy. simpl.
    apply Nat.ltb_lt in Hx, Hy.
    destruct (nth_error (data gray) (y * width gray + x)) as [p|] eqn:E.
    - rewrite Forall_forall in Hb. apply nth_error_In in E.
      destruct (colour_of_level p (Hb p E)) as (c & Hc & _). now exists p, c.
    - apply nth_error_None in E. nia. }
  destruct (paint_image colour (width gray) (height gray) (0, 0, 0)%Z)
    as (out & Hrun & Hw & Hh & Hso & Hget).
  { intros x y Hx Hy. unfold colour.
    destruct (Hg x y Hx Hy) as (p & c & -> & ->). discriminate. }
  exists out. split.
  - unfold apply_jet_palette. rewrite <- Hrun.
    apply for_each_ext. intros y s. apply for_each_ext. intros x s'.
    unfold paint, colour. destruct (getpixel gray x y); [|reflexivity].
    now destruct (pixel_colour z).
  - repeat split; auto.
    + unfold sized in Hso. now rewrite Hso, Hw, Hh.
    + intros x y Hx Hy. destruct (Hg x y Hx Hy) as (p & c & Hp & Hc).
      exists p, c. repeat split; auto. rewrite (Hget x y Hx Hy). unfold colour.
      now rewrite Hp.
Qed.

Lemma apply_jet_palette_pointwise_witness :
  exists out,
    apply_jet_palette four_levels = Some out
    /\ width out = 2%nat /\ height out = 2%nat
    /\ length (data out) = 4%nat
    /\ forall x y, (x < 2)%nat -> (y < 2)%nat ->
       exists p c, getpixel four_levels x y = Some p /\ pixel_colour p = Some c
                   /\ getpixel out x y = Some c.
Proof.
  apply (apply_jet_palette_pointwise four_levels); [reflexivity|].
  repeat constructor; simpl; lia.
Defined.

(** X15. [save_discrete_rgb] colours every pixel: on an image [w] wide and
    [h] high the pixel at column [x] is green below [w // 3], yellow below
    [2 * w // 3] and red from there on, in every row; for the width 256
    of the server the bands start at columns 0, 85 and 170. *)
Theorem discrete_bands (w h : nat) :
  exists img,
    save_discrete_rgb w h = Some img
    /\ width img = w /\ height img = h
    /\ length (data img) = (w * h)%nat
    /\ (forall x y, (x < w)%nat -> (y < h)%nat -> getpixel img x y = Some (band w x))
    /\ (forall x, band 256 x =
                  if (x <? 85)%nat then (0, 200, 0)%Z
                  else if (x <? 170)%nat then (220, 220, 0)%Z
                  else (220, 0, 0)%Z).
Proof.
  destruct (paint_image (fun x _ => Some (band w x)) w h (0, 0, 0)%Z)
    as (img & Hrun & Hw & Hh & Hs & Hget).
  { discriminate. }
  exists img. repeat split; auto.
  unfold sized in Hs. now rewrite Hs, Hw, Hh.
Qed.

(** ** The byte array of a pseudo-colour map *)

Section ColormapLoops.

Variable w : nat.
Variable randint : nat -> Z.

Hypothesis gray_defined :
  forall x k, (x < w)%nat -> exists b, gray_byte w x (randint k) = Some b /\ (0 <= b <= 255)%Z.

Lemma length_range (n : nat) : length (range n) = n.
Proof. apply length_seq. Qed.

Lemma row_loop (xs : list nat) (bytes : list Z) (k : nat) :
  (forall x, In x xs -> (x < w)%nat) ->
  for_each xs (next_byte w randint) (bytes, k) =
  Some ((bytes ++ row_of w randint xs k), (k + length xs)%nat).
Proof.
  revert bytes k. induction xs as [|x xs IH]; intros bytes k Hxs; simpl.
  - now rewrite app_nil_r, Nat.add_0_r.
  - destruct (gray_defined x k (Hxs x (or_introl eq_refl))) as (b & Hb & Hr).
    unfold byte_at. rewrite Hb. unfold append_byte.
    replace ((0 <=? b)%Z && (b <? 256)%Z) with true
      by (symmetry; apply andb_true_intro; split; [apply Z.leb_le | apply Z.ltb_lt]; lia).
    rewrite IH by (intros; apply Hxs; now right).
    now rewrite <- app_assoc, Nat.add_succ_r.
Qed.

Lemma rows_loop (ys : list nat) (bytes : list Z) (k : nat) :
  for_each ys (fun _ st => for_each (range w) (next_byte w randint) st) (bytes, k) =
  Some ((bytes ++ rows_of w randint ys k), (k + length ys * w)%nat).
Proof.
  revert bytes k. induction ys as [|y ys IH]; intros bytes k; simpl.
  - now rewrite app_nil_r, Nat.add_0_r.
  - rewrite row_loop by (intros x Hx; apply in_seq in Hx; lia).
    rewrite length_range, IH, <- app_assoc. f_equal. f_equal. lia.
Qed.

Lemma length_row_of (xs : list nat) (k : nat) :
  length (row_of w randint xs k) = length xs.
Proof. revert k. induction xs; intros k; simpl; auto. Qed.

Lemma length_rows_of (ys : list nat) (k : nat) :
  length (rows_of w randint ys k) = (length ys * w)%nat.
Proof.
  revert k. induction ys as [|y ys IH]; intros k; simpl; [reflexivity|].
  now rewrite length_app, length_row_of, IH, length_range.
Qed.

Lemma nth_row_of (a n k i : nat) :
  (i < n)%nat ->
  nth_error (row_of w randint (seq a n) k) i = Some (byte_at w randint (a + i) (k + i)).
Proof.
  revert a k i. induction n as [|n IH]; intros a k i Hi; [lia|].
  destruct i as [|i]; simpl.
  - now rewrite !Nat.add_0_r.
  - rewrite IH by lia. f_equal. f_equal; lia.
Qed.

Lemma nth_rows_of (ys : list nat) (k y x : nat) :
  (y < length ys)%nat -> (x < w)%nat ->
  nth_error (rows_of w randint ys k) (y * w + x)
  = Some (byte_at w randint x (k + (y * w + x))).
Proof.
  revert k y. induction ys as [|y0 ys IH]; intros k y Hy Hx; simpl in *; [lia|].
  destruct y as [|y].
  - rewrite nth_error_app1 by (rewrite length_row_of, length_range; lia).
    unfold range. now rewrite nth_row_of.
  - rewrite nth_error_app2 by (rewrite length_row_of, length_range; lia).
    rewrite length_row_of, length_range.
    replace (S y * w + x - w)%nat with (y * w + x)%nat by lia.
    rewrite IH by lia. f_equal. f_equal. lia.
Qed.

Lemma byte_at_range (x k : nat) : (x < w)%nat -> (0 <= byte_at w randint x k <= 255)%Z.
Proof.
  intros Hx. unfold byte_at. destruct (gray_defined x k Hx) as (b & -> & Hb). exact Hb.
Qed.

Lemma row_bytes (n a k : nat) :
  (a + n <= w)%nat -> Forall (fun p => 0 <= p <= 255)%Z (row_of w randint (seq a n) k).
Proof.
  revert a k. induction n as [|n IH]; intros a k Hle; simpl; constructor.
  - apply byte_at_range. lia.
  - apply IH. lia.
Qed.

Lemma rows_bytes (ys : list nat) (k : nat) :
  Forall (fun p => 0 <= p <= 255)%Z (rows_of w randint ys k).
Proof.
  revert k. induction ys as [|y ys IH]; intros k; simpl; [constructor|].
  apply Forall_app. split; [|apply IH]. apply row_bytes. lia.
Qed.

(** The byte array of [save_colormap] and the image made of it. *)
Lemma colormap_loops (h : nat) :
  exists out,
    save_colormap w h randint = Some out
    /\ width out = w /\ height out = h
    /\ forall x y, (x < w)%nat -> (y < h)%nat ->
       exists c, pixel_colour (byte_at w randint x (y * w + x)) = Some c
                 /\ getpixel out x y = Some c.
Proof.
  set (bytes := rows_of w randint (range h) 0).
  assert (Hl : length bytes = (w * h)%nat).
  { unfold bytes. rewrite length_rows_of, length_range. lia. }
  set (gray := {| width := w; height := h; data := bytes |}).
  destruct (apply_jet_palette_pointwise gray Hl (rows_bytes _ _))
    as (out & Hrun & Hw & Hh & _ & Hget).
  exists out. split; [|split; [exact Hw | split; [exact Hh|]]].
  - unfold save_colormap.
    change (for_each (range h) _ ([], 0%nat))
      with (for_each (range h) (fun _ st => for_each (range w) (next_byte w randint) st)
              ([], 0%nat)).
    rewrite rows_loop. simpl app. fold bytes. unfold frombytes.
    rewrite Hl, Nat.eqb_refl. exact Hrun.
  - intros x y Hx Hy. destruct (Hget x y Hx Hy) as (p & c & Hp & Hc & Ho).
    exists c. split; [|exact Ho].
    unfold getpixel, inside in Hp. simpl in Hp.
    apply Nat.ltb_lt in Hx, Hy. rewrite Hx, Hy in Hp. simpl in Hp.
    apply Nat.ltb_lt in Hx, Hy.
    unfold bytes in Hp. rewrite nth_rows_of in Hp by (rewrite ?length_range; lia).
    injection Hp as <-. exact Hc.
Qed.

End ColormapLoops.

Lemma gray_of_level (x : nat) (n : Z) :
  (x < 256)%nat -> (0 <= n <= 255)%Z ->
  exists b,
    gray_byte 256 x n = Some b
    /\ blend (Z.of_nat x) n = Some b
    /\ (0 <= b <= 255)%Z
    /\ (7 * Z.of_nat x + 3 * n - 10 <= 10 * b <= 7 * Z.of_nat x + 3 * n)%Z.
Proof.
  intros Hx Hn. pose proof gray_table as T. rewrite forallb_forall in T.
  specialize (T (Z.of_nat x) (level_in (Z.of_nat x) ltac:(lia))). rewrite forallb_forall in T.
  specialize (T n (level_in n Hn)). unfold gray_ok in T. rewrite Nat2Z.id in T.
  destruct (gray_byte 256 x n) as [b|]; [|discriminate].
  destruct (blend (Z.of_nat x) n) as [b'|]; [|discriminate].
  unfold is_byte in T. rewrite !andb_true_iff, !Z.leb_le, Z.eqb_eq in T.
  destruct T as [[[-> Hb] Hlo] Hhi]. exists b'. repeat split; auto; lia.
Qed.

(** X16. [save_colormap] at the server's size 256 x 256, for a generator
    whose draws are bytes: it never raises and saves a 256 x 256 image;
    the draws are used row by row, and the pixel at column [x] of row [y]
    is the palette colour of the byte int(0.7 * x + 0.3 * n), [n] being
    draw number [256 * y + x]: the gradient value of the column is [x]
    itself, the clamp changes nothing, and the byte is the exact blend
    (7x + 3n) / 10 rounded down, or one less. *)
Theorem colormap_image (randint : nat -> Z) :
  (forall k, 0 <= randint k <= 255)%Z ->
  exists img,
    save_colormap 256 256 randint = Some img
    /\ width img = 256%nat /\ height img = 256%nat
    /\ forall x y, (x < 256)%nat -> (y < 256)%nat ->
       exists b c,
         blend (Z.of_nat x) (randint (y * 256 + x)%nat) = Some b
         /\ (0 <= b <= 255)%Z
         /\ (7 * Z.of_nat x + 3 * randint (y * 256 + x)%nat - 10 <= 10 * b
             <= 7 * Z.of_nat x + 3 * randint (y * 256 + x)%nat)%Z
         /\ pixel_colour b = Some c
         /\ getpixel img x y = Some c.
Proof.
  intros Hr.
  assert (Hg : forall x k, (x < 256)%nat ->
                 exists b, gray_byte 256 x (randint k) = Some b /\ (0 <= b <= 255)%Z).
  { intros x k Hx. destruct (gray_of_level x (randint k) Hx (Hr k)) as (b & Hb & _ & Hbyte & _).
    now exists b. }
  destruct (colormap_loops 256 randint Hg 256) as (img & Hrun & Hw & Hh & Hget).
  exists img. repeat split; auto.
  intros x y Hx Hy. destruct (Hget x y Hx Hy) as (c & Hc & Ho).
  destruct (gray_of_level x (randint (y * 256 + x)) Hx (Hr _)) as (b & Hb & Hbl & Hbyte & Hbound).
  unfold byte_at in Hc. rewrite Hb in Hc.
  exists b, c. repeat split; auto; lia.
Qed.

Lemma colormap_image_witness :
  exists img,
    save_colormap 256 256 steady = Some img
    /\ width img = 256%nat /\ height img = 256%nat
    /\ getpixel img 0 0 = Some (0, 152, 255)%Z
    /\ getpixel img 100 7 = Some (0, 255, 78)%Z
    /\ getpixel img 255 255 = Some (255, 156, 0)%Z.
Proof.
  assert (Hr : forall k, (0 <= steady k <= 255)%Z) by (intros k; unfold steady; lia).
  destruct (colormap_image steady Hr) as (img & Hrun & Hw & Hh & Hpix).
  exists img. split; [exact Hrun | split; [exact Hw | split; [exact Hh|]]].
  assert (H0 : (0 < 256)%nat) by lia.
  assert (H7 : (7 < 256)%nat) by lia.
  assert (H100 : (100 < 256)%nat) by lia.
  assert (H255 : (255 < 256)%nat) by lia.
  destruct (Hpix 0%nat 0%nat H0 H0) as (b1 & c1 & Hb1 & _ & _ & Hc1 & Hg1).
  destruct (Hpix 100%nat 7%nat H100 H7) as (b2 & c2 & Hb2 & _ & _ & Hc2 & Hg2).
  destruct (Hpix 255%nat 255%nat H255 H255) as (b3 & c3 & Hb3 & _ & _ & Hc3 & Hg3).
  vm_compute in Hb1, Hb2, Hb3.
  injection Hb1 as <-. injection Hb2 as <-. injection Hb3 as <-.
  vm_compute in Hc1, Hc2, Hc3.
  injection Hc1 as <-. injection Hc2 as <-. injection Hc3 as <-.
  split; [exact Hg1 | split; [exact Hg2 | exact Hg3]].
Defined.

(** ** The files of the demo maps *)

Section MapFiles.

Lemma distinct_NoDup (l : list text) : distinct l = true -> NoDup l.
Proof.
  induction l as [|x l IH]; simpl; [constructor|].
  intros H. apply andb_prop in H. destruct H as [H1 H2].
  constructor; [|now apply IH].
  intros Hin. apply negb_true_iff in H1.
  assert (E : existsb (eqb x) l = true).
  { apply existsb_exists. exists x. split; [exact Hin | apply eqb_refl]. }
  congruence.
Qed.

End MapFiles.

(** X17. With Pillow and a generator whose draws are bytes, the generator of
    the demo maps never raises: it writes nine images of 256 x 256 pixels
    under nine different names that end in ".png"; when the listing of the
    results directory shows these files, the reply lists each of them
    under "/results/", at least nine addresses in all.  Without Pillow
    nothing is written. *)
Theorem demo_maps_written (random : Z -> nat -> Z) :
  (forall seed k, 0 <= random seed k <= 255)%Z ->
  exists files,
    generate_demo_maps true random = Some files
    /\ map fst files =
       [ T "ndvi_map.png"; T "gndvi_map.png"; T "ndre_map.png"; T "savi_map.png";
         T "evi_map.png"; T "soil_condition_map.png"; T "crop_health_map.png";
         T "pest_risk_map.png"; T "pest_risk_score_map.png" ]
    /\ NoDup (map fst files)
    /\ (forall f img, In (f, img) files -> width img = 256%nat /\ height img = 256%nat)
    /\ (forall listed, incl (map fst files) listed ->
        (forall f, In f (map fst files) -> In (T "/results/" ++ f) (map_urls listed))
        /\ (9 <= length (map_urls listed))%nat)
    /\ generate_demo_maps false random = Some [].
Proof.
  intros Hr. unfold generate_demo_maps.
  destruct (colormap_image (random 1%Z) (Hr 1%Z)) as (i1 & -> & W1 & H1 & _).
  destruct (colormap_image (random 2%Z) (Hr 2%Z)) as (i2 & -> & W2 & H2 & _).
  destruct (colormap_image (random 3%Z) (Hr 3%Z)) as (i3 & -> & W3 & H3 & _).
  destruct (colormap_image (random 4%Z) (Hr 4%Z)) as (i4 & -> & W4 & H4 & _).
  destruct (colormap_image (random 5%Z) (Hr 5%Z)) as (i5 & -> & W5 & H5 & _).
  destruct (colormap_image (random 6%Z) (Hr 6%Z)) as (i6 & -> & W6 & H6 & _).
  destruct (colormap_image (random 7%Z) (Hr 7%Z)) as (i7 & -> & W7 & H7 & _).
  destruct (discrete_bands 256 256) as (d & -> & Wd & Hd & _).
  cbn [option_map and_then]. eexists. split; [reflexivity|].
  set (names := [ T "ndvi_map.png"; T "gndvi_map.png"; T "ndre_map.png"; T "savi_map.png";
                  T "evi_map.png"; T "soil_condition_map.png"; T "crop_health_map.png";
                  T "pest_risk_map.png"; T "pest_risk_score_map.png" ]).
  assert (Hnd : NoDup names) by (apply distinct_NoDup; vm_compute; reflexivity).
  assert (Hpng : forall f, In f names -> endswith (T ".png") f = true).
  { intros f Hf. unfold names in Hf. simpl in Hf.
    repeat (destruct Hf as [<-|Hf]; [vm_compute; reflexivity|]). contradiction. }
  split; [reflexivity|]. split; [exact Hnd|]. split; [|split; [|reflexivity]].
  - intros f img Hin. simpl in Hin.
    repeat (destruct Hin as [[= <- <-]|Hin]; [auto|]). contradiction.
  - intros listed Hincl.
    assert (Hurl : forall f, In f names -> In f (filter (endswith (T ".png")) listed)).
    { intros f Hf. apply filter_In. split; [now apply Hincl | now apply Hpng]. }
    split.
    + intros f Hf. unfold map_urls, image_urls. apply in_map. now apply Hurl.
    + unfold map_urls, image_urls. rewrite length_map.
      apply (NoDup_incl_length Hnd). intros f Hf. now apply Hurl.
Qed.

Lemma demo_maps_written_witness :
  exists files,
    generate_demo_maps true (fun _ => steady) = Some files
    /\ length files = 9%nat.
Proof.
  destruct (demo_maps_written (fun _ => steady)) as (files & Hrun & Hnames & _).
  - intros seed k. unfold steady. lia.
  - exists files. split; [exact Hrun|].
    rewrite <- (length_map fst), Hnames. reflexivity.
Defined.
